(** * pywincert: a model of the certificate helpers and their properties

    The Python module drives external Windows tools (makecert, certutil,
    cert2spc, pvk2pfx, signtool) and answers makecert's password popups
    through WScript.Shell.  Everything the module does is an effect on the
    outside world, so the model is a state-and-exception monad over a
    [world] (the log of effects performed so far and the file system),
    run against an [environment] that answers every query the code makes:
    the registry, the window manager, the exit status of each process, the
    clock.  Answers may depend on the whole history of effects.

    Child processes may exit with any status or fail to start, and the
    process launched through the shell may write files while the responder
    polls, sleeps and types, and may hold files open so that they cannot
    be removed.  The calls the module makes into Python's own libraries
    without handling their failure (the COM dispatch and launch,
    [tempfile.mkdtemp]) are taken to do their work. *)

From Stdlib Require Import ZArith List String Ascii Bool Lia.
From stdpp Require Import gmap strings list.
Import ListNotations.

Local Open Scope Z_scope.
Local Open Scope string_scope.
Local Open Scope list_scope.

(** ** Python values used by the module *)

(** The exceptions the module raises or lets through. *)
Inductive exn : Type :=
  | RuntimeError (msg : string)
  | AssertionError (msg : string)
  | CalledProcessError (returncode : Z) (cmd : list string) (output : string)
  | OSError
  | OverflowError
  | ValueError.

Inductive outcome (A : Type) : Type :=
  | Ret (a : A)
  | Raise (e : exn).
Arguments Ret {A} a.
Arguments Raise {A} e.

(** What a finished child process hands back; [SpawnFailed] is the
    [OSError] of [subprocess] when the program cannot be started. *)
Inductive proc_result : Type :=
  | Exited (returncode : Z) (stdout stderr : string)
  | SpawnFailed.

Inductive loglevel : Type := DEBUG | INFO | ERROR.

(** Effects, in the order the interpreter performs them.  Durations of
    [time.sleep] are in milliseconds (0.5 s = 500, 0.2 s = 200). *)
Inductive event : Type :=
  | ShellRun (cmd : string) (style : Z) (wait : bool)
  | AppActivate (title : string) (found : bool)
  | Sleep (ms : Z)
  | SendKeys (keys : string)
  | Exec (argv : list string) (res : proc_result)
  | Mkdtemp (dir : string)
  | Rmtree (dir : string)
  | Log (lvl : loglevel) (msg : string).

Inductive node : Type := File | Dir.

(** A calendar date and a time stamp: the proleptic Gregorian ordinal of
    the day (1 is 0001-01-01, as [date.toordinal]) and the second of the
    day. *)
Record datetime : Type := mkDatetime { dt_ordinal : Z; dt_second : Z }.

Record world : Type := mkWorld {
  w_trace : list event;
  w_fs : gmap string node
}.

(** The outside world.  [env_step] is what the processes started so far
    have done to the file system by the time an external call returns;
    [env_locked] tells which paths cannot be removed at a given moment (a
    file a running process holds open, a directory in use). *)
Record environment : Type := mkEnv {
  env_sdk : option string;
  env_activate : list event -> string -> bool;
  env_exec : list event -> list string -> proc_result;
  env_step : list event -> gmap string node -> gmap string node;
  env_locked : list event -> string -> bool;
  env_tmpdir : list event -> string;
  env_now : datetime
}.

Definition fs_isfile (fs : gmap string node) (p : string) : bool :=
  match fs !! p with Some File => true | _ => false end.

(** ** The monad *)

Definition M (A : Type) : Type := world -> outcome A * world.

Definition ret {A} (a : A) : M A := fun w => (Ret a, w).
Definition raise {A} (e : exn) : M A := fun w => (Raise e, w).
Definition bind {A B} (m : M A) (k : A -> M B) : M B :=
  fun w => match m w with
           | (Ret a, w') => k a w'
           | (Raise e, w') => (Raise e, w')
           end.

(** [try: body finally: cleanup] *)
Definition try_finally {A} (body : M A) (cleanup : M unit) : M A :=
  fun w => match body w with
           | (r, w') => match cleanup w' with
                        | (Ret _, w'') => (r, w'')
                        | (Raise e, w'') => (Raise e, w'')
                        end
           end.

(** [try: body except CalledProcessError as exc: handler exc.output] *)
Definition except_called_process_error {A} (body : M A)
    (handler : string -> M A) : M A :=
  fun w => match body w with
           | (Raise (CalledProcessError _ _ output), w') => handler output w'
           | other => other
           end.

Declare Scope py_scope.
Delimit Scope py_scope with py.
Notation "x <- m ;; k" := (bind m (fun x => k))
  (at level 100, m at next level, right associativity) : py_scope.
Notation "m ;; k" := (bind m (fun _ => k))
  (at level 100, right associativity) : py_scope.
Local Open Scope py_scope.

(** A local effect: only logged. *)
Definition emit (e : event) : M unit :=
  fun w => (Ret tt, mkWorld (w_trace w ++ [e]) (w_fs w)).

Definition dquote : string := String (ascii_of_nat 34) EmptyString.
Definition backslash : ascii := ascii_of_nat 92.
Definition newline : ascii := ascii_of_nat 10.

(** ** Pure helpers *)

(** [re.sub(r'\\\\', r'\\', pth)]: every pair of backslashes, taken from
    the left without overlap, becomes one backslash. *)
Fixpoint collapse_backslashes (s : string) : string :=
  match s with
  | EmptyString => EmptyString
  | String a t =>
      match t with
      | String b rest =>
          if Ascii.eqb a backslash && Ascii.eqb b backslash
          then String backslash (collapse_backslashes rest)
          else String a (collapse_backslashes t)
      | EmptyString => String a EmptyString
      end
  end.

Fixpoint last_char (s : string) : option ascii :=
  match s with
  | EmptyString => None
  | String a EmptyString => Some a
  | String _ t => last_char t
  end.

(** *** [ntpath], the [os.path] of Windows *)

Definition slash : ascii := ascii_of_nat 47.
Definition colon : ascii := ascii_of_nat 58.

(** [c in '\\/'] *)
Definition is_sep (a : ascii) : bool :=
  Ascii.eqb a backslash || Ascii.eqb a slash.

Definition is_empty (s : string) : bool :=
  match s with EmptyString => true | _ => false end.

(** [s and s[0] in '\\/'] and [s and s[-1] in '\\/'] *)
Definition starts_with_sep (s : string) : bool :=
  match s with String c _ => is_sep c | EmptyString => false end.
Definition ends_with_sep (s : string) : bool :=
  match last_char s with Some c => is_sep c | None => false end.

(** [p.replace(altsep, sep)] *)
Fixpoint norm_seps (p : string) : string :=
  match p with
  | EmptyString => EmptyString
  | String c r =>
      String (if Ascii.eqb c slash then backslash else c) (norm_seps r)
  end.

(** [s.find(sep, start)], with [None] for -1. *)
Fixpoint find_sep (s : string) (start : nat) : option nat :=
  match s with
  | EmptyString => None
  | String c r =>
      match start with
      | O => if Ascii.eqb c backslash then Some O
             else option_map S (find_sep r O)
      | S n => option_map S (find_sep r n)
      end
  end.

(** [s.lower()] of a byte string. *)
Definition lower_char (c : ascii) : ascii :=
  let n := nat_of_ascii c in
  if (65 <=? n)%nat && (n <=? 90)%nat then ascii_of_nat (n + 32) else c.
Fixpoint lower (s : string) : string :=
  match s with
  | EmptyString => EmptyString
  | String c r => String (lower_char c) (lower r)
  end.

(** [ntpath.splitdrive(p)]: a drive letter with its colon, or the machine
    and share of a UNC path, and the rest. *)
Definition splitdrive (p : string) : string * string :=
  if (1 <? String.length p)%nat then
    let normp := norm_seps p in
    if String.eqb (substring 0 2 normp)
                  (String backslash (String backslash EmptyString)) &&
       negb (String.eqb (substring 2 1 normp) (String backslash EmptyString))
    then
      match find_sep normp 2 with
      | None => (EmptyString, p)
      | Some index =>
          match find_sep normp (S index) with
          | Some index2 =>
              if (index2 =? S index)%nat then (EmptyString, p)
              else (substring 0 index2 p,
                    substring index2 (String.length p - index2) p)
          | None => (p, EmptyString)
          end
      end
    else if String.eqb (substring 1 1 normp) (String colon EmptyString)
    then (substring 0 2 p, substring 2 (String.length p - 2) p)
    else (EmptyString, p)
  else (EmptyString, p).

(** "Second path is relative to the first". *)
Definition join_relative (result_path p_path : string) : string :=
  (if negb (is_empty result_path) && negb (ends_with_sep result_path)
   then result_path +:+ String backslash EmptyString
   else result_path) +:+ p_path.

(** One turn of the loop of [ntpath.join] over the further components. *)
Definition join_step (st : string * string) (p : string) : string * string :=
  let (result_drive, result_path) := st in
  let (p_drive, p_path) := splitdrive p in
  if starts_with_sep p_path then
    (if negb (is_empty p_drive) || is_empty result_drive
     then p_drive else result_drive, p_path)
  else if negb (is_empty p_drive) && negb (String.eqb p_drive result_drive)
  then
    if negb (String.eqb (lower p_drive) (lower result_drive))
    then (p_drive, p_path)
    else (p_drive, join_relative result_path p_path)
  else (result_drive, join_relative result_path p_path).

(** [os.path.join(path, *paths)], as in [ntpath] of Python 2.7. *)
Definition os_path_join (path : string) (paths : list string) : string :=
  let (result_drive, result_path) :=
    fold_left join_step paths (splitdrive path) in
  if negb (is_empty result_path) && negb (starts_with_sep result_path) &&
     negb (is_empty result_drive) &&
     negb (match last_char result_drive with
           | Some c => Ascii.eqb c colon
           | None => false
           end)
  then result_drive +:+ String backslash result_path
  else result_drive +:+ result_path.

(** [s.split("\n")] *)
Fixpoint split_lines (s : string) : list string :=
  match s with
  | EmptyString => [EmptyString]
  | String c rest =>
      if Ascii.eqb c newline then EmptyString :: split_lines rest
      else match split_lines rest with
           | hd :: tl => String c hd :: tl
           | [] => [String c EmptyString]
           end
  end.

(** The character class [[a-f\d]] of a byte-string pattern. *)
Definition in_hex_class (c : ascii) : bool :=
  let n := nat_of_ascii c in
  ((97 <=? n)%nat && (n <=? 102)%nat) || ((48 <=? n)%nat && (n <=? 57)%nat).

Fixpoint strip_prefix (p s : string) : option string :=
  match p with
  | EmptyString => Some s
  | String a p' =>
      match s with
      | String b s' => if Ascii.eqb a b then strip_prefix p' s' else None
      | EmptyString => None
      end
  end.

(** The longest run of class characters at the front, and what follows. *)
Fixpoint span_hex (s : string) : string * string :=
  match s with
  | String c rest =>
      if in_hex_class c
      then let (g, r) := span_hex rest in (String c g, r)
      else (EmptyString, s)
  | EmptyString => (EmptyString, EmptyString)
  end.

(** [$] without [re.MULTILINE]: the end of the string, or the position
    before a newline that ends the string. *)
Definition at_dollar (rest : string) : bool :=
  match rest with
  | EmptyString => true
  | String c EmptyString => Ascii.eqb c newline
  | _ => false
  end.

Definition serial_prefix : string := "Serial Number: ".

(** [re.match(r'^Serial Number: ([a-f\d]+)$', line)], giving [group(1)].
    The class has no newline in it, so the greedy run is the only
    candidate for the group. *)
Definition match_serial (line : string) : option string :=
  match strip_prefix serial_prefix line with
  | None => None
  | Some t =>
      let (g, rest) := span_hex t in
      match g with
      | EmptyString => None
      | _ => if at_dollar rest then Some g else None
      end
  end.

(** The loop that fills [snums]. *)
Fixpoint collect_serials (lines : list string) (snums : list string)
    : list string :=
  match lines with
  | [] => snums
  | line :: rest =>
      match match_serial line with
      | Some g => collect_serials rest (snums ++ [g])
      | None => collect_serials rest snums
      end
  end.

(** *** Dates, after [datetime] *)

Definition MAXORDINAL : Z := 3652059.

Definition days_before_month (m : Z) : Z :=
  nth (Z.to_nat m) [0; 0; 31; 59; 90; 120; 151; 181; 212; 243; 273; 304; 334] 0.
Definition days_in_month (m : Z) : Z :=
  nth (Z.to_nat m) [0; 31; 28; 31; 30; 31; 30; 31; 31; 30; 31; 30; 31] 0.

Definition b2z (b : bool) : Z := if b then 1 else 0.

(** [date.fromordinal]: ordinal to (year, month, day). *)
Definition ord2ymd (ordinal : Z) : Z * Z * Z :=
  let n := ordinal - 1 in
  let n400 := n / 146097 in
  let n := n mod 146097 in
  let n100 := n / 36524 in
  let n := n mod 36524 in
  let n4 := n / 1461 in
  let n := n mod 1461 in
  let n1 := n / 365 in
  let n := n mod 365 in
  let year := n400 * 400 + 1 + n100 * 100 + n4 * 4 + n1 in
  if (n1 =? 4)%Z || (n100 =? 4)%Z then (year - 1, 12, 31)
  else
    let leapyear := (n1 =? 3)%Z && (negb (n4 =? 24)%Z || (n100 =? 3)%Z) in
    let month := Z.shiftr (n + 50) 5 in
    let preceding := days_before_month month + b2z ((2 <? month)%Z && leapyear) in
    if (n <? preceding)%Z then
      let month' := month - 1 in
      let preceding' :=
        preceding - (days_in_month month' + b2z ((month' =? 2)%Z && leapyear)) in
      (year, month', n - preceding' + 1)
    else (year, month, n - preceding + 1).

Definition digit (d : Z) : string :=
  String (ascii_of_nat (48 + Z.to_nat d)) EmptyString.
Definition pad2 (n : Z) : string := digit (n / 10 mod 10) +:+ digit (n mod 10).
Definition pad4 (n : Z) : string := pad2 (n / 100) +:+ pad2 (n mod 100).

(** [timedelta(hours=h).days] for an integer [h]: the constructor
    normalises to whole days plus a second of the day, and refuses more
    than 999999999 days. *)
Definition timedelta_hours_days (h : Z) : outcome Z :=
  let d := h / 24 in
  if (Z.abs d <=? 999999999)%Z then Ret d else Raise OverflowError.

(** [date + timedelta]: only the days of the difference count. *)
Definition date_add_days (ordinal days : Z) : outcome Z :=
  let o := ordinal + days in
  if (0 <? o)%Z && (o <=? MAXORDINAL)%Z then Ret o else Raise OverflowError.

(** [d.strftime('%m/%d/%Y')]; Python 2 refuses years before 1900. *)
Definition strftime_mdY (ordinal : Z) : outcome string :=
  match ord2ymd ordinal with
  | (y, m, d) =>
      if (y <? 1900)%Z then Raise ValueError
      else Ret (pad2 m +:+ "/" +:+ pad2 d +:+ "/" +:+ pad4 y)
  end.

Definition lift {A} (r : outcome A) : M A := fun w => (r, w).

Section Program.

Variable E : environment.

(** An effect during which the outside world moves on. *)
Definition interact (e : event) : M unit :=
  fun w => let h := w_trace w ++ [e] in
           (Ret tt, mkWorld h (env_step E h (w_fs w))).

Definition log (lvl : loglevel) (msg : string) : M unit := emit (Log lvl msg).

(** *** WScript.Shell *)

Definition shell_Run (cmd : string) (style : Z) (wait : bool) : M unit :=
  interact (ShellRun cmd style wait).

Definition shell_AppActivate (title : string) : M bool :=
  fun w => let found := env_activate E (w_trace w) title in
           match interact (AppActivate title found) w with
           | (_, w') => (Ret found, w')
           end.

Definition shell_SendKeys (keys : string) : M unit := interact (SendKeys keys).

Definition time_sleep (ms : Z) : M unit := interact (Sleep ms).

(** [for _ in xrange(n): if shell.AppActivate(title): break;
    time.sleep(0.5)] *)
Fixpoint poll_popup (title : string) (n : nat) : M unit :=
  match n with
  | O => ret tt
  | S n' =>
      found <- shell_AppActivate title ;;
      if found then ret tt
      else time_sleep 500 ;; poll_popup title n'
  end.

Definition popup_title : string := "Create Private Key Password".
Definition popup_timeout : exn :=
  RuntimeError "timeout waiting for makecert popup(1)".

(** The wait of both responders: twenty polls half a second apart, then
    one more activation that decides between going on and the timeout. *)
Definition wait_for_popup : M unit :=
  poll_popup popup_title 20 ;;
  found <- shell_AppActivate popup_title ;;
  if negb found then raise popup_timeout else ret tt.

(** First screen: password, TAB, password, TAB, ENTER. *)
Definition answer_create_password (password : string) : M unit :=
  shell_SendKeys password ;;
  time_sleep 200 ;;
  shell_SendKeys "{TAB}" ;;
  time_sleep 200 ;;
  shell_SendKeys password ;;
  time_sleep 200 ;;
  shell_SendKeys "{TAB}" ;;
  time_sleep 200 ;;
  shell_SendKeys "{ENTER}" ;;
  time_sleep 500.

(** Second and third screen: password, TAB, ENTER. *)
Definition answer_enter_password (password : string) : M unit :=
  shell_SendKeys password ;;
  time_sleep 200 ;;
  shell_SendKeys "{TAB}" ;;
  time_sleep 200 ;;
  shell_SendKeys "{ENTER}" ;;
  time_sleep 500.

Definition run_makecert_authority (cmd password : string) : M unit :=
  log DEBUG ("run_makecert_authority " +:+ cmd) ;;
  shell_Run cmd 1 false ;;
  wait_for_popup ;;
  time_sleep 200 ;;
  answer_create_password password ;;
  answer_enter_password password.

Definition run_makecert_enduser (cmd password : string) : M unit :=
  log DEBUG ("run_makecert_enduser " +:+ cmd) ;;
  shell_Run cmd 1 false ;;
  wait_for_popup ;;
  answer_create_password password ;;
  answer_enter_password password ;;
  answer_enter_password password.

(** *** Registry, files and processes *)

Definition WINSDK_ERROR : string :=
  "Windows SDK may not be installed on this machine. " +:+
  "You can read more and (re-)download from " +:+
  "https://en.wikipedia.org/wiki/Microsoft_Windows_SDK".

(** The registry value is either there or the lookup raises
    [WindowsError], which the function turns into a [RuntimeError]. *)
Definition get_winsdk_path : M string :=
  match env_sdk E with
  | Some pth => ret (collapse_backslashes pth)
  | None => raise (RuntimeError
                     ("missing windows sdk registry entry: " +:+ WINSDK_ERROR))
  end.

Definition os_path_isfile (p : string) : M bool :=
  fun w => (Ret (fs_isfile (w_fs w) p), w).

(** Starts the program and waits for it: the common part of
    [check_output] and of [Popen] followed by [communicate]. *)
Definition run_process (argv : list string) : M proc_result :=
  fun w => let r := env_exec E (w_trace w) argv in
           match interact (Exec argv r) w with
           | (_, w') => (Ret r, w')
           end.

(** [subprocess.check_output(argv)]; with [stderr=STDOUT] the captured
    output is the merged stream, which is what the environment reports
    as [stdout] for such a call. *)
Definition check_output (argv : list string) : M string :=
  r <- run_process argv ;;
  match r with
  | Exited code out _ =>
      if (code =? 0)%Z then ret out
      else raise (CalledProcessError code argv out)
  | SpawnFailed => raise OSError
  end.

(** [Popen(cmd, stdout=PIPE, stderr=PIPE)], [communicate()] and
    [returncode]. *)
Definition popen_communicate (argv : list string) : M (Z * string * string) :=
  r <- run_process argv ;;
  match r with
  | Exited code out err => ret (code, out, err)
  | SpawnFailed => raise OSError
  end.

Definition tempfile_mkdtemp : M string :=
  fun w => let d := env_tmpdir E (w_trace w) in
           (Ret d, mkWorld (w_trace w ++ [Mkdtemp d]) (<[d := Dir]> (w_fs w))).

(** [p] is [d] itself or lies below it. *)
Definition under (d p : string) : bool :=
  String.eqb d p || String.prefix (d +:+ String backslash EmptyString) p.

(** Some entry of the tree [d] at or below [p] cannot be removed. *)
Definition blocked (locked : string -> bool) (d : string)
    (fs : gmap string node) (p : string) : bool :=
  existsb (fun kv : string * node =>
             under d kv.1 && under p kv.1 && locked kv.1)
          (map_to_list fs).

(** What is left of the file system when the tree [d] is removed as far
    as it can be: an entry of the tree stays when it cannot be removed or
    when something below it stays. *)
Definition rmtree_fs (locked : string -> bool) (d : string)
    (fs : gmap string node) : gmap string node :=
  filter (fun kv : string * node =>
            negb (under d kv.1) || blocked locked d fs kv.1 = true) fs.

(** [shutil.rmtree(d, ignore_errors=True)]: removes what it can of the
    tree; what cannot be removed is passed over and nothing is raised.
    The launched process may write meanwhile. *)
Definition shutil_rmtree (d : string) : M unit :=
  fun w => let h := w_trace w ++ [Rmtree d] in
           (Ret tt,
            mkWorld h (env_step E h
                         (rmtree_fs (env_locked E (w_trace w)) d (w_fs w)))).

(** [for fname in fnames: if not os.path.isfile(fname): raise ...] *)
Fixpoint confirm_created (what : string) (fnames : list string) : M unit :=
  match fnames with
  | [] => ret tt
  | fname :: rest =>
      ok <- os_path_isfile fname ;;
      if negb ok
      then raise (RuntimeError (what +:+ " did not create " +:+ fname))
      else confirm_created what rest
  end.

(** *** make_ca *)

Definition make_ca_cmd (mkcert beg_date end_date subject pvk_filename
    cer_filename : string) : string :=
  dquote +:+ mkcert +:+ dquote +:+ " " +:+
  "-r " +:+ "-a sha1 " +:+ "-pe " +:+
  "-b " +:+ beg_date +:+ " " +:+
  "-e " +:+ end_date +:+ " " +:+
  "-n " +:+ dquote +:+ "CN=" +:+ subject +:+ dquote +:+ " " +:+
  "-ss CA " +:+ "-sr LocalMachine " +:+ "-cy authority " +:+
  "-sky signature " +:+
  "-sv " +:+ dquote +:+ pvk_filename +:+ dquote +:+ " " +:+
  dquote +:+ cer_filename +:+ dquote.

(** The two dates of the validity window, as the code computes them from
    [now.date()]. *)
Definition make_ca_dates (now : datetime) (valid_hours : Z)
    : M (string * string) :=
  beg <- lift (date_add_days (dt_ordinal now) (-1)) ;;
  beg_date <- lift (strftime_mdY beg) ;;
  days <- lift (timedelta_hours_days valid_hours) ;;
  fin <- lift (date_add_days (dt_ordinal now) days) ;;
  end_date <- lift (strftime_mdY fin) ;;
  ret (beg_date, end_date).

Definition addstore_cmd (cer_filename : string) : list string :=
  ["certutil.exe"; "-addstore"; "Root"; cer_filename].

(** Up to and including the run of makecert through the responder. *)
Definition make_ca_run (subject password pvk_filename cer_filename : string)
    (valid_hours : Z) : M unit :=
  sdk <- get_winsdk_path ;;
  let mkcert := os_path_join sdk ["Bin"; "makecert.exe"] in
  present <- os_path_isfile mkcert ;;
  if negb present then raise (AssertionError ("missing '" +:+ mkcert +:+ "'"))
  else
    dates <- make_ca_dates (env_now E) valid_hours ;;
    let cmd := make_ca_cmd mkcert dates.1 dates.2 subject pvk_filename
                 cer_filename in
    run_makecert_authority cmd password.

(** "Confirm expected output", then the addition to the Root store. *)
Definition make_ca_confirm (pvk_filename cer_filename : string) : M unit :=
  confirm_created "makecert(CA)" [pvk_filename; cer_filename] ;;
  _ <- check_output (addstore_cmd cer_filename) ;;
  ret tt.

Definition make_ca (subject password pvk_filename cer_filename : string)
    (valid_hours : Z) : M unit :=
  make_ca_run subject password pvk_filename cer_filename valid_hours ;;
  make_ca_confirm pvk_filename cer_filename.

(** *** remove_cert_fromstore and remove_ca *)

Definition store_cmd (store certid : string) : list string :=
  ["certutil.exe"; "-store"; store; certid].
Definition delstore_cmd (store snum : string) : list string :=
  ["certutil.exe"; "-delstore"; store; snum].

Fixpoint delete_serials (store : string) (snums : list string) : M unit :=
  match snums with
  | [] => ret tt
  | snum :: rest =>
      log DEBUG ("delete certificate " +:+ snum) ;;
      _ <- check_output (delstore_cmd store snum) ;;
      delete_serials store rest
  end.

Definition no_match (certid : string) : exn :=
  RuntimeError ("no certificate with matching certid '" +:+ certid +:+ "'").

Definition remove_cert_fromstore (certid store : string) : M unit :=
  output <- check_output (store_cmd store certid) ;;
  let snums := collect_serials (split_lines output) [] in
  match snums with
  | [] => raise (no_match certid)
  | _ => delete_serials store snums
  end.

Definition remove_ca (certid : string) : M unit :=
  remove_cert_fromstore certid "Root" ;;
  remove_cert_fromstore certid "CA".

(** *** make_pfx *)

Definition make_pfx_cmd (mkcert ca_subject ca_cer_filename ca_pvk_filename
    pvk cer : string) : string :=
  dquote +:+ mkcert +:+ dquote +:+ " " +:+
  "-pe " +:+
  "-n " +:+ dquote +:+ "CN=" +:+ ca_subject +:+ dquote +:+ " " +:+
  "-cy end " +:+ "-sky signature " +:+
  "-ic " +:+ ca_cer_filename +:+ " " +:+
  "-iv " +:+ ca_pvk_filename +:+ " " +:+
  "-sv " +:+ dquote +:+ pvk +:+ dquote +:+ " " +:+
  dquote +:+ cer +:+ dquote.

Definition pvk2pfx_cmd (pvk2pfx pvk password spc pfx_filename : string)
    : list string :=
  [pvk2pfx; "-pvk"; pvk; "-pi"; password; "-spc"; spc; "-f";
   "-pfx"; pfx_filename; "-po"; password].

(** The body of the [try] block. *)
Definition make_pfx_body (mkcert cert2spc pvk2pfx pvk cer spc ca_subject
    password ca_pvk_filename ca_cer_filename pfx_filename : string) : M unit :=
  let cmd := make_pfx_cmd mkcert ca_subject ca_cer_filename ca_pvk_filename
               pvk cer in
  run_makecert_enduser cmd password ;;
  confirm_created "makecert(end)" [pvk; cer] ;;
  except_called_process_error
    (_ <- check_output [cert2spc; cer; spc] ;; ret tt)
    (fun output =>
       raise (RuntimeError ("error running " +:+ cert2spc +:+ " " +:+ cer
                            +:+ " " +:+ spc +:+ ": " +:+ output))) ;;
  except_called_process_error
    (_ <- check_output (pvk2pfx_cmd pvk2pfx pvk password spc pfx_filename) ;;
     ret tt)
    (fun output =>
       raise (RuntimeError ("error running " +:+ pvk2pfx +:+ ": " +:+ output))).

Definition make_pfx (ca_subject password ca_pvk_filename ca_cer_filename
    pfx_filename : string) : M Z :=
  sdk <- get_winsdk_path ;;
  let sdkpath := os_path_join sdk ["Bin"] in
  let mkcert := os_path_join sdkpath ["makecert.exe"] in
  let cert2spc := os_path_join sdkpath ["cert2spc.exe"] in
  let pvk2pfx := os_path_join sdkpath ["pvk2pfx.exe"] in
  tmpd <- tempfile_mkdtemp ;;
  let pvk := os_path_join tmpd ["mykey.pvk"] in
  let cer := os_path_join tmpd ["mycert.cer"] in
  let spc := os_path_join tmpd ["mycert.spc"] in
  try_finally
    (make_pfx_body mkcert cert2spc pvk2pfx pvk cer spc ca_subject password
       ca_pvk_filename ca_cer_filename pfx_filename)
    (shutil_rmtree tmpd) ;;
  ret 0%Z.

(** *** sign_code and is_signed *)

Definition timestamp_urls : list string :=
  ["http://timestamp.comodoca.com/authenticode";
   "http://timestamp.verisign.com/scripts/timstamp.dll";
   "http://timestamp.globalsign.com/scripts/timestamp.dll";
   "http://tsa.starfieldtech.com"].

Definition sign_cmd (signtool pfx_file password turl exe : string)
    : list string :=
  [signtool; "sign"; "/f"; pfx_file; "/p"; password; "/t"; turl; exe].

Definition retries_exhausted (exe : string) : exn :=
  RuntimeError ("retries exhausted signing " +:+ exe).

(** [for turl in urls: ...] with the [raise] that follows the loop. *)
Fixpoint sign_loop (signtool exe pfx_file password : string)
    (urls : list string) : M unit :=
  match urls with
  | [] => raise (retries_exhausted exe)
  | turl :: rest =>
      task <- popen_communicate (sign_cmd signtool pfx_file password turl exe) ;;
      match task with
      | (returncode, stdout, stderr) =>
          if (returncode =? 2)%Z then
            log DEBUG ("failed to sign w/ timestamp url " +:+ turl) ;;
            sign_loop signtool exe pfx_file password rest
          else
            (if negb (returncode =? 0)%Z
             then log INFO stdout ;; log ERROR stderr
             else ret tt) ;;
            log DEBUG stdout ;;
            ret tt
      end
  end.

Definition sign_code (exe pfx_file password : string) : M unit :=
  sdk <- get_winsdk_path ;;
  let signtool := os_path_join sdk ["Bin"; "signtool.exe"] in
  sign_loop signtool exe pfx_file password timestamp_urls.

Definition is_signed (exe : string) : M bool :=
  sdk <- get_winsdk_path ;;
  let signtool := os_path_join sdk ["Bin"; "signtool.exe"] in
  except_called_process_error
    (_ <- check_output [signtool; "verify"; "/q"; "/pa"; exe] ;; ret true)
    (fun _ => ret false).

End Program.

(** ** Reading runs *)

(** [steps m w r evs w']: from [w] the computation ends in [w'] with
    result [r], having appended exactly [evs] to the log. *)
Definition steps {A} (m : M A) (w : world) (r : outcome A)
    (evs : list event) (w' : world) : Prop :=
  m w = (r, w') /\ w_trace w' = w_trace w ++ evs.

Definition runs {A} (m : M A) (w : world) (r : outcome A)
    (evs : list event) : Prop :=
  exists w', steps m w r evs w'.

(** The events a run added to the log of [w]. *)
Definition new_events (w w' : world) : list event :=
  drop (length (w_trace w)) (w_trace w').

(** What the responder did to the shell: launches, activations, sleeps
    and keystrokes, without the Python-side logging. *)
Definition is_shell_event (e : event) : bool :=
  match e with
  | ShellRun _ _ _ | AppActivate _ _ | Sleep _ | SendKeys _ => true
  | _ => false
  end.
Definition schedule (evs : list event) : list event :=
  List.filter is_shell_event evs.

Definition is_keystroke (e : event) : bool :=
  match e with SendKeys _ => true | _ => false end.
Definition keystrokes (evs : list event) : list event :=
  List.filter is_keystroke evs.

(** The command lines of the processes a run started and waited for. *)
Fixpoint invocations (evs : list event) : list (list string) :=
  match evs with
  | [] => []
  | Exec argv _ :: rest => argv :: invocations rest
  | _ :: rest => invocations rest
  end.

(** *** The simulated window manager *)

Fixpoint polls_from (acc : nat) (h : list event) : nat :=
  match h with
  | [] => acc
  | ShellRun _ _ _ :: t => polls_from 0 t
  | AppActivate _ _ :: t => polls_from (S acc) t
  | _ :: t => polls_from acc t
  end.

(** Activation queries made since the last launch. *)
Definition polls_since_launch (h : list event) : nat := polls_from 0 h.

(** The expected title can be activated from the [K]-th query after the
    launch on, and not before. *)
Definition popup_after (K : nat) (h : list event) (title : string) : bool :=
  String.eqb title popup_title && (K <=? S (polls_since_launch h))%nat.

Definition with_window_manager (wm : list event -> string -> bool)
    (E : environment) : environment :=
  mkEnv (env_sdk E) wm (env_exec E) (env_step E) (env_locked E)
        (env_tmpdir E) (env_now E).

(** One unsuccessful poll of the loop. *)
Definition miss : list event := [AppActivate popup_title false; Sleep 500].
Definition misses (n : nat) : list event := concat (repeat miss n).
Definition hit : event := AppActivate popup_title true.

Definition create_password_events (password : string) : list event :=
  [SendKeys password; Sleep 200; SendKeys "{TAB}"; Sleep 200;
   SendKeys password; Sleep 200; SendKeys "{TAB}"; Sleep 200;
   SendKeys "{ENTER}"; Sleep 500].
Definition enter_password_events (password : string) : list event :=
  [SendKeys password; Sleep 200; SendKeys "{TAB}"; Sleep 200;
   SendKeys "{ENTER}"; Sleep 500].

(** What the wait of a responder does when the popup can be activated
    from query [K] on: the polls, and the query after the loop. *)
Definition wait_events (K : nat) : list event :=
  if (K <=? 20)%nat then misses (K - 1) ++ [hit; hit]
  else if (K <=? 21)%nat then misses 20 ++ [hit]
  else misses 20 ++ [AppActivate popup_title false].

Definition wait_result (K : nat) : outcome unit :=
  if (K <=? 21)%nat then Ret tt else Raise popup_timeout.

Definition launch_events (name cmd : string) : list event :=
  [Log DEBUG (name +:+ " " +:+ cmd); ShellRun cmd 1 false].

(** The tail of a responder's schedule after the wait. *)
Definition authority_answers (password : string) : list event :=
  Sleep 200 :: create_password_events password ++
  enter_password_events password.
Definition enduser_answers (password : string) : list event :=
  create_password_events password ++ enter_password_events password ++
  enter_password_events password.

Definition after_wait (r : outcome unit) (answers : list event) : list event :=
  match r with Ret _ => answers | Raise _ => [] end.

(** The polls of the loop for an arbitrary window manager [wm], from
    history [h]. *)
Fixpoint poll_events (wm : list event -> string -> bool) (h : list event)
    (n : nat) : list event :=
  match n with
  | O => []
  | S n' => if wm h popup_title then [hit]
            else miss ++ poll_events wm (h ++ miss) n'
  end.

(** A window manager that does not look at the Python-side log. *)
Definition log_blind (wm : list event -> string -> bool) : Prop :=
  forall h title, wm h title = wm (schedule h) title.

(** A fixture: the SDK is installed, every process exits with 0 and
    prints nothing, nothing else touches the file system or holds a file,
    and no popup ever shows. *)
Definition quiet_env : environment :=
  mkEnv (Some "C:\SDK")
        (fun _ _ => false)
        (fun _ _ => Exited 0 EmptyString EmptyString)
        (fun _ fs => fs)
        (fun _ _ => false)
        (fun _ => "C:\Temp\tmp0")
        (mkDatetime 736330 46800).

Definition empty_world : world := mkWorld [] ∅.

Definition with_processes (ex : list event -> list string -> proc_result)
    (E : environment) : environment :=
  mkEnv (env_sdk E) (env_activate E) ex (env_step E) (env_locked E)
        (env_tmpdir E) (env_now E).

(** *** Reading runs of sign_code *)

Definition signtool_path (sdk : string) : string :=
  os_path_join (collapse_backslashes sdk) ["Bin"; "signtool.exe"].

(** What signtool answers for each endpoint, whatever happened before:
    exit status, standard output and standard error. *)
Definition signtool_replies (E : environment)
    (signtool exe pfx_file password : string)
    (reply : string -> Z * string * string) : Prop :=
  forall h turl,
    env_exec E h (sign_cmd signtool pfx_file password turl exe) =
    Exited (reply turl).1.1 (reply turl).1.2 (reply turl).2.

Definition exit_code (reply : string -> Z * string * string) (turl : string)
    : Z := (reply turl).1.1.

(** An attempt that exits with 2 and is skipped. *)
Definition skipped_attempt (signtool exe pfx_file password : string)
    (reply : string -> Z * string * string) (turl : string) : list event :=
  [Exec (sign_cmd signtool pfx_file password turl exe)
        (Exited 2 (reply turl).1.2 (reply turl).2);
   Log DEBUG ("failed to sign w/ timestamp url " +:+ turl)].

(** An attempt that exits with anything else and ends the loop. *)
Definition last_attempt (signtool exe pfx_file password : string)
    (reply : string -> Z * string * string) (turl : string) : list event :=
  [Exec (sign_cmd signtool pfx_file password turl exe)
        (Exited (reply turl).1.1 (reply turl).1.2 (reply turl).2)] ++
  (if ((reply turl).1.1 =? 0)%Z then []
   else [Log INFO (reply turl).1.2; Log ERROR (reply turl).2]) ++
  [Log DEBUG (reply turl).1.2].

(** A fixture: signtool's exit status is a function of the endpoint, the
    eighth word of its command line. *)
Definition exec_by_url (code : string -> Z) (h : list event)
    (argv : list string) : proc_result :=
  Exited (code (nth 7 argv EmptyString)) "out" "err".

Definition first_url : string := "http://timestamp.comodoca.com/authenticode".

(** Exit statuses for the fixtures: the first endpoint is skipped and the
    others hit a signing error; the first endpoint hits a signing error
    and the others work; the first endpoint is skipped and the others
    work. *)
Definition skip_then_error (turl : string) : Z :=
  if String.eqb turl first_url then 2 else 1.
Definition error_then_ok (turl : string) : Z :=
  if String.eqb turl first_url then 1 else 0.
Definition skip_then_ok (turl : string) : Z :=
  if String.eqb turl first_url then 2 else 0.

(** *** Reading the store adapter *)

(** The pattern in words: the line is the text "Serial Number: " followed
    by one or more characters that are decimal digits or the letters a to
    f, and by nothing else. *)
Definition is_serial_line (line : string) : bool :=
  match strip_prefix serial_prefix line with
  | Some ds => negb (String.eqb ds EmptyString) &&
               forallb in_hex_class (list_ascii_of_string ds)
  | None => false
  end.

Definition no_newline (line : string) : Prop :=
  ~ In newline (list_ascii_of_string line).

(** The serial numbers [remove_cert_fromstore] reads off a listing. *)
Definition serials_of (output : string) : list string :=
  collect_serials (split_lines output) [].

Definition exit_ok (r : proc_result) : bool :=
  match r with
  | Exited code _ _ => (code =? 0)%Z
  | SpawnFailed => false
  end.

(** What certutil answers to a listing of [store], and to the deletion of
    a serial number from [store], whatever happened before. *)
Definition store_replies (E : environment) (certid : string)
    (listing : string -> string * string) : Prop :=
  forall h store,
    env_exec E h (store_cmd store certid) =
    Exited 0 (listing store).1 (listing store).2.

Definition delstore_replies (E : environment)
    (reply : string -> string -> proc_result) : Prop :=
  forall h store snum,
    env_exec E h (delstore_cmd store snum) = reply store snum.

(** One turn of the deletion loop. *)
Definition delete_attempt (reply : string -> string -> proc_result)
    (store snum : string) : list event :=
  [Log DEBUG ("delete certificate " +:+ snum);
   Exec (delstore_cmd store snum) (reply store snum)].

Definition delete_attempts (reply : string -> string -> proc_result)
    (store : string) (snums : list string) : list event :=
  concat (map (delete_attempt reply store) snums).

(** The exception [check_output] raises for a result that is not a clean
    exit. *)
Definition check_output_error (argv : list string) (r : proc_result) : exn :=
  match r with
  | Exited code out _ => CalledProcessError code argv out
  | SpawnFailed => OSError
  end.

(** A fixture: certutil lists [listing store] for a query of [store] and
    exits with [del_code snum] when asked to delete [snum]. *)
Definition exec_certutil (listing : string -> string) (del_code : string -> Z)
    (h : list event) (argv : list string) : proc_result :=
  if String.eqb (nth 1 argv EmptyString) "-store"
  then Exited 0 (listing (nth 2 argv EmptyString)) EmptyString
  else if String.eqb (nth 1 argv EmptyString) "-delstore"
       then Exited (del_code (nth 3 argv EmptyString)) EmptyString EmptyString
       else Exited 0 EmptyString EmptyString.

Definition two_serials : string :=
  "Serial Number: 01" +:+ String newline EmptyString +:+
  "Serial Number: 02" +:+ String newline EmptyString.

(** Fixtures: the certificate is listed in the CA store only; deleting
    serial number 01 fails. *)
Definition only_in_ca (store : string) : string :=
  if String.eqb store "CA" then two_serials else EmptyString.
Definition fail_first (snum : string) : Z :=
  if String.eqb snum "01" then 1 else 0.

(** *** Reading make_ca and make_pfx *)

(** The end of the validity window in the words of the documentation:
    the day on which the time [valid_hours] hours from now falls. *)
Definition hours_later_ordinal (now : datetime) (valid_hours : Z) : Z :=
  dt_ordinal now + (dt_second now + 3600 * valid_hours) / 86400.

Definition missing_file (fname : string) : exn :=
  RuntimeError ("makecert(CA) did not create " +:+ fname).

(** A fixture: a machine on which only makecert.exe of the SDK exists. *)
Definition sdk_world : world :=
  mkWorld [] {[ "C:\SDK\Bin\makecert.exe" := File ]}.

(** A fixture: makecert shows its popup at the first query and has
    written its two files by the time the launch returns; every other
    program exits with the status [code] gives it by name. *)
Definition makecert_writes (pvk cer : string) (h : list event)
    (fs : gmap string node) : gmap string node :=
  match last h with
  | Some (ShellRun _ _ _) => <[pvk := File]> (<[cer := File]> fs)
  | _ => fs
  end.

Definition exec_by_program (code : string -> Z) (h : list event)
    (argv : list string) : proc_result :=
  Exited (code (nth 0 argv EmptyString)) "out" "err".

Definition working_env (pvk cer : string) (code : string -> Z) : environment :=
  mkEnv (Some "C:\SDK") (popup_after 1) (exec_by_program code)
        (makecert_writes pvk cer) (fun _ _ => false)
        (fun _ => "C:\Temp\tmp0")
        (mkDatetime 736330 46800).

Definition scratch_pvk : string := "C:\Temp\tmp0\mykey.pvk".
Definition scratch_cer : string := "C:\Temp\tmp0\mycert.cer".

(** A fixture: as [working_env] with its two scratch files, but [held]
    is kept open by the process that wrote it and cannot be removed. *)
Definition holding_env (held : string) : environment :=
  mkEnv (Some "C:\SDK") (popup_after 1) (exec_by_program (fun _ => 0))
        (makecert_writes scratch_pvk scratch_cer)
        (fun _ p => String.eqb p held)
        (fun _ => "C:\Temp\tmp0")
        (mkDatetime 736330 46800).

Definition fails (program : string) (name : string) : Z :=
  if String.eqb name program then 1 else 0.

(** *** Reading the remaining behaviour *)

Definition sdk_missing : exn :=
  RuntimeError ("missing windows sdk registry entry: " +:+ WINSDK_ERROR).

(** Two backslashes next to each other somewhere in the string. *)
Fixpoint has_double_backslash (s : string) : bool :=
  match s with
  | EmptyString => false
  | String a t =>
      match t with
      | String b _ =>
          (Ascii.eqb a backslash && Ascii.eqb b backslash) ||
          has_double_backslash t
      | EmptyString => false
      end
  end.

Definition verify_cmd (signtool exe : string) : list string :=
  [signtool; "verify"; "/q"; "/pa"; exe].

Definition is_activation (e : event) : bool :=
  match e with AppActivate _ _ => true | _ => false end.

(** The number of activation queries in a log. *)
Definition activations (evs : list event) : nat :=
  length (List.filter is_activation evs).

(** The time slept in a log, in milliseconds. *)
Fixpoint total_sleep (evs : list event) : Z :=
  match evs with
  | [] => 0
  | Sleep ms :: rest => ms + total_sleep rest
  | _ :: rest => total_sleep rest
  end.

(** The keys of the two kinds of dialog. *)
Definition create_password_keys (password : string) : list event :=
  [SendKeys password; SendKeys "{TAB}"; SendKeys password; SendKeys "{TAB}";
   SendKeys "{ENTER}"].
Definition enter_password_keys (password : string) : list event :=
  [SendKeys password; SendKeys "{TAB}"; SendKeys "{ENTER}"].

(** ["\n".join(lines)] *)
Fixpoint join_lines (lines : list string) : string :=
  match lines with
  | [] => EmptyString
  | [line] => line
  | line :: rest => line +:+ String newline (join_lines rest)
  end.

Fixpoint count_newlines (s : string) : nat :=
  match s with
  | EmptyString => O
  | String c rest =>
      if Ascii.eqb c newline then S (count_newlines rest)
      else count_newlines rest
  end.

Definition all_hex (s : string) : bool :=
  forallb in_hex_class (list_ascii_of_string s).

(** The exceptions make_pfx lets out. *)
Definition runtime_or_os_error (e : exn) : Prop :=
  match e with
  | RuntimeError _ | OSError => True
  | _ => False
  end.

Definition makecert_path (sdk : string) : string :=
  os_path_join (collapse_backslashes sdk) ["Bin"; "makecert.exe"].

(** The serial numbers the listing query yields: those of its output
    when it exits with 0, none when it fails. *)
Definition listed_serials (res : proc_result) : list string :=
  match res with
  | Exited code listing _ =>
      if (code =? 0)%Z then serials_of listing else []
  | SpawnFailed => []
  end.

(** A result that is a value or one of the exceptions make_pfx lets out. *)
Definition plain_outcome {A} (r : outcome A) : Prop :=
  match r with
  | Ret _ => True
  | Raise e => runtime_or_os_error e
  end.

Definition is_launch (e : event) : bool :=
  match e with ShellRun _ _ _ => true | _ => false end.

(** The launches through the shell in a log. *)
Definition launches (evs : list event) : list event :=
  List.filter is_launch evs.

(** ** Basic facts about runs *)

Lemma steps_ret {A} (a : A) w : steps (ret a) w (Ret a) [] w.
Proof. split; [reflexivity | now rewrite app_nil_r]. Qed.

Lemma steps_raise {A} e w : steps (@raise A e) w (Raise e) [] w.
Proof. split; [reflexivity | now rewrite app_nil_r]. Qed.

Lemma steps_bind {A B} (m : M A) (k : A -> M B) w a e1 w1 r e2 w2 :
  steps m w (Ret a) e1 w1 -> steps (k a) w1 r e2 w2 ->
  steps (bind m k) w r (e1 ++ e2) w2.
Proof.
  intros [Hm Ht] [Hk Ht']. split.
  - unfold bind. now rewrite Hm.
  - now rewrite Ht', Ht, app_assoc.
Qed.

Lemma steps_bind_raise {A B} (m : M A) (k : A -> M B) w e e1 w1 :
  steps m w (Raise e) e1 w1 -> steps (bind m k) w (Raise e) e1 w1.
Proof.
  intros [Hm Ht]. split; [|exact Ht]. unfold bind. now rewrite Hm.
Qed.

Lemma runs_bind {A B} (m : M A) (k : A -> M B) w a e1 r e2 :
  runs m w (Ret a) e1 ->
  (forall w1, w_trace w1 = w_trace w ++ e1 -> runs (k a) w1 r e2) ->
  runs (bind m k) w r (e1 ++ e2).
Proof.
  intros [w1 Hm] Hk. destruct (Hk w1 (proj2 Hm)) as [w2 Hk2].
  exists w2. eapply steps_bind; eauto.
Qed.

Lemma runs_bind_raise {A B} (m : M A) (k : A -> M B) w e e1 :
  runs m w (Raise e) e1 -> runs (bind m k) w (Raise e) e1.
Proof. intros [w1 Hm]. exists w1. now apply steps_bind_raise. Qed.

Lemma runs_ret {A} (a : A) w : runs (ret a) w (Ret a) [].
Proof. eexists. apply steps_ret. Qed.

Lemma runs_new_events {A} (m : M A) w r evs w' :
  steps m w r evs w' -> new_events w w' = evs.
Proof.
  intros [_ Ht]. unfold new_events. rewrite Ht. now rewrite drop_app_length.
Qed.

Section RunFacts.

Variable E : environment.

Lemma runs_interact e w : runs (interact E e) w (Ret tt) [e].
Proof. eexists. split; reflexivity. Qed.

Lemma runs_emit e w : runs (emit e) w (Ret tt) [e].
Proof. eexists. split; reflexivity. Qed.

Lemma runs_AppActivate title w :
  runs (shell_AppActivate E title) w
       (Ret (env_activate E (w_trace w) title))
       [AppActivate title (env_activate E (w_trace w) title)].
Proof. eexists. split; reflexivity. Qed.

Lemma runs_create_password pw w :
  runs (answer_create_password E pw) w (Ret tt) (create_password_events pw).
Proof.
  eexists. split; [reflexivity|]. cbn. now rewrite <- !app_assoc.
Qed.

Lemma runs_enter_password pw w :
  runs (answer_enter_password E pw) w (Ret tt) (enter_password_events pw).
Proof.
  eexists. split; [reflexivity|]. cbn. now rewrite <- !app_assoc.
Qed.

End RunFacts.

(** ** The popup wait under the simulated window manager *)

Lemma polls_from_app h t acc :
  polls_from acc (h ++ t) = polls_from (polls_from acc h) t.
Proof.
  revert acc. induction h as [|e h IH]; intros acc; [reflexivity|].
  destruct e; simpl; apply IH.
Qed.

Lemma polls_after_miss h :
  polls_since_launch (h ++ miss) = S (polls_since_launch h).
Proof. unfold polls_since_launch. now rewrite polls_from_app. Qed.

Lemma polls_after_hit h :
  polls_since_launch (h ++ [hit]) = S (polls_since_launch h).
Proof. unfold polls_since_launch. now rewrite polls_from_app. Qed.

Lemma polls_after_misses n h :
  polls_since_launch (h ++ misses n) = (polls_since_launch h + n)%nat.
Proof.
  revert h. induction n as [|n IH]; intros h.
  - unfold misses. simpl. rewrite app_nil_r. lia.
  - change (misses (S n)) with (miss ++ misses n).
    rewrite (app_assoc h miss), IH, polls_after_miss. lia.
Qed.

Lemma polls_after_launch h name cmd :
  polls_since_launch (h ++ launch_events name cmd) = 0%nat.
Proof. unfold polls_since_launch. now rewrite polls_from_app. Qed.

Lemma popup_after_spec K h :
  popup_after K h popup_title = (K <=? S (polls_since_launch h))%nat.
Proof. reflexivity. Qed.

Section PopupWait.

Variable E0 : environment.
Variable K : nat.
Let E := with_window_manager (popup_after K) E0.

Lemma poll_popup_misses n w :
  (polls_since_launch (w_trace w) + n < K)%nat ->
  runs (poll_popup E popup_title n) w (Ret tt) (misses n).
Proof.
  revert w. induction n as [|n IH]; intros w Hlt.
  - apply runs_ret.
  - change (misses (S n)) with ([AppActivate popup_title false] ++
                                 ([Sleep 500] ++ misses n)).
    assert (Hans : env_activate E (w_trace w) popup_title = false).
    { change (popup_after K (w_trace w) popup_title = false).
      rewrite popup_after_spec. apply Nat.leb_gt. lia. }
    simpl poll_popup.
    eapply runs_bind.
    { pose proof (runs_AppActivate E popup_title w) as H.
      rewrite Hans in H. exact H. }
    intros w1 Hw1. cbv beta iota.
    eapply runs_bind; [apply runs_interact|].
    intros w2 Hw2. apply IH.
    rewrite Hw2, Hw1, <- app_assoc.
    change ([AppActivate popup_title false] ++ [Sleep 500]) with miss.
    rewrite polls_after_miss. lia.
Qed.

Lemma poll_popup_hit n w j :
  (polls_since_launch (w_trace w) + j + 1 = K)%nat -> (j < n)%nat ->
  runs (poll_popup E popup_title n) w (Ret tt) (misses j ++ [hit]).
Proof.
  revert w j. induction n as [|n IH]; intros w j HK Hj; [lia|].
  simpl poll_popup. destruct j as [|j].
  - assert (Hans : env_activate E (w_trace w) popup_title = true).
    { change (popup_after K (w_trace w) popup_title = true).
      rewrite popup_after_spec. apply Nat.leb_le. lia. }
    change (misses 0 ++ [hit]) with ([hit] ++ []).
    eapply runs_bind.
    { pose proof (runs_AppActivate E popup_title w) as H.
      rewrite Hans in H. exact H. }
    intros w1 _. apply runs_ret.
  - assert (Hans : env_activate E (w_trace w) popup_title = false).
    { change (popup_after K (w_trace w) popup_title = false).
      rewrite popup_after_spec. apply Nat.leb_gt. lia. }
    change (misses (S j) ++ [hit]) with
      ([AppActivate popup_title false] ++ ([Sleep 500] ++ (misses j ++ [hit]))).
    eapply runs_bind.
    { pose proof (runs_AppActivate E popup_title w) as H.
      rewrite Hans in H. exact H. }
    intros w1 Hw1. cbv beta iota.
    eapply runs_bind; [apply runs_interact|].
    intros w2 Hw2. apply IH; [|lia].
    rewrite Hw2, Hw1, <- app_assoc.
    change ([AppActivate popup_title false] ++ [Sleep 500]) with miss.
    rewrite polls_after_miss. lia.
Qed.

(** The wait, started right after a launch. *)
Lemma wait_for_popup_runs w :
  polls_since_launch (w_trace w) = 0%nat -> (1 <= K)%nat ->
  runs (wait_for_popup E) w (wait_result K) (wait_events K).
Proof.
  intros H0 HK. unfold wait_for_popup, wait_events, wait_result.
  destruct (K <=? 20)%nat eqn:H20.
  - apply Nat.leb_le in H20.
    assert (H21 : (K <=? 21)%nat = true) by (apply Nat.leb_le; lia).
    rewrite H21.
    replace (misses (K - 1) ++ [hit; hit])
      with ((misses (K - 1) ++ [hit]) ++ ([hit] ++ []))
      by now rewrite <- app_assoc.
    eapply runs_bind; [apply poll_popup_hit; lia|].
    intros w1 Hw1.
    assert (Hans : env_activate E (w_trace w1) popup_title = true).
    { change (popup_after K (w_trace w1) popup_title = true).
      rewrite popup_after_spec, Hw1, app_assoc, polls_after_hit,
        polls_after_misses. apply Nat.leb_le. lia. }
    eapply runs_bind.
    { pose proof (runs_AppActivate E popup_title w1) as H.
      rewrite Hans in H. exact H. }
    intros w2 _. apply runs_ret.
  - apply Nat.leb_gt in H20. destruct (K <=? 21)%nat eqn:H21.
    + apply Nat.leb_le in H21.
      eapply runs_bind; [apply poll_popup_misses; lia|].
      intros w1 Hw1.
      assert (Hans : env_activate E (w_trace w1) popup_title = true).
      { change (popup_after K (w_trace w1) popup_title = true).
        rewrite popup_after_spec, Hw1, polls_after_misses.
        apply Nat.leb_le. lia. }
      replace [hit] with ([hit] ++ @nil event) by reflexivity.
      eapply runs_bind.
      { pose proof (runs_AppActivate E popup_title w1) as H.
        rewrite Hans in H. exact H. }
      intros w2 _. apply runs_ret.
    + apply Nat.leb_gt in H21.
      eapply runs_bind; [apply poll_popup_misses; lia|].
      intros w1 Hw1.
      assert (Hans : env_activate E (w_trace w1) popup_title = false).
      { change (popup_after K (w_trace w1) popup_title = false).
        rewrite popup_after_spec, Hw1, polls_after_misses.
        apply Nat.leb_gt. lia. }
      replace [AppActivate popup_title false]
        with ([AppActivate popup_title false] ++ @nil event) by reflexivity.
      eapply runs_bind.
      { pose proof (runs_AppActivate E popup_title w1) as H.
        rewrite Hans in H. exact H. }
      intros w2 _. eexists. apply steps_raise.
Qed.

End PopupWait.

(** ** The responders around the wait *)

Section Responders.

Variable E : environment.

Lemma launch_runs name cmd w :
  runs (log DEBUG (name +:+ " " +:+ cmd) ;; shell_Run E cmd 1 false) w
       (Ret tt) (launch_events name cmd).
Proof.
  change (launch_events name cmd)
    with ([Log DEBUG (name +:+ " " +:+ cmd)] ++ [ShellRun cmd 1 false]).
  eapply runs_bind; [apply runs_emit|]. intros w1 _. apply runs_interact.
Qed.

Lemma authority_around_wait cmd pw w r W :
  (forall w1,
      w_trace w1 = w_trace w ++ launch_events "run_makecert_authority" cmd ->
      runs (wait_for_popup E) w1 r W) ->
  runs (run_makecert_authority E cmd pw) w r
       (launch_events "run_makecert_authority" cmd ++ W ++
        after_wait r (authority_answers pw)).
Proof.
  intros Hwait. unfold run_makecert_authority.
  change (launch_events "run_makecert_authority" cmd)
    with ([Log DEBUG ("run_makecert_authority " +:+ cmd)] ++
          [ShellRun cmd 1 false]) in *.
  rewrite <- app_assoc.
  eapply runs_bind; [apply runs_emit|]. intros w1 Hw1.
  eapply runs_bind; [apply runs_interact|]. intros w2 Hw2.
  assert (Hw : w_trace w2 =
               w_trace w ++ [Log DEBUG ("run_makecert_authority " +:+ cmd)] ++
               [ShellRun cmd 1 false])
    by (rewrite Hw2, Hw1; now rewrite <- app_assoc).
  specialize (Hwait w2 Hw). destruct r as [[]|e].
  - eapply runs_bind; [exact Hwait|]. intros w3 _.
    change (after_wait (Ret tt) (authority_answers pw))
      with ([Sleep 200] ++ create_password_events pw ++
            enter_password_events pw).
    eapply runs_bind; [apply runs_interact|]. intros w4 _.
    eapply runs_bind; [apply runs_create_password|]. intros w5 _.
    apply runs_enter_password.
  - simpl after_wait. rewrite app_nil_r. now apply runs_bind_raise.
Qed.

Lemma enduser_around_wait cmd pw w r W :
  (forall w1,
      w_trace w1 = w_trace w ++ launch_events "run_makecert_enduser" cmd ->
      runs (wait_for_popup E) w1 r W) ->
  runs (run_makecert_enduser E cmd pw) w r
       (launch_events "run_makecert_enduser" cmd ++ W ++
        after_wait r (enduser_answers pw)).
Proof.
  intros Hwait. unfold run_makecert_enduser.
  change (launch_events "run_makecert_enduser" cmd)
    with ([Log DEBUG ("run_makecert_enduser " +:+ cmd)] ++
          [ShellRun cmd 1 false]) in *.
  rewrite <- app_assoc.
  eapply runs_bind; [apply runs_emit|]. intros w1 Hw1.
  eapply runs_bind; [apply runs_interact|]. intros w2 Hw2.
  assert (Hw : w_trace w2 =
               w_trace w ++ [Log DEBUG ("run_makecert_enduser " +:+ cmd)] ++
               [ShellRun cmd 1 false])
    by (rewrite Hw2, Hw1; now rewrite <- app_assoc).
  specialize (Hwait w2 Hw). destruct r as [[]|e].
  - eapply runs_bind; [exact Hwait|]. intros w3 _.
    unfold after_wait, enduser_answers.
    eapply runs_bind; [apply runs_create_password|]. intros w4 _.
    eapply runs_bind; [apply runs_enter_password|]. intros w5 _.
    apply runs_enter_password.
  - simpl after_wait. rewrite app_nil_r. now apply runs_bind_raise.
Qed.

(** The loop never raises, and its polls are those of [poll_events]. *)
Lemma poll_popup_runs n w :
  runs (poll_popup E popup_title n) w (Ret tt)
       (poll_events (env_activate E) (w_trace w) n).
Proof.
  revert w. induction n as [|n IH]; intros w; [apply runs_ret|].
  simpl poll_popup.
  change (poll_events (env_activate E) (w_trace w) (S n))
    with (if env_activate E (w_trace w) popup_title then [hit]
          else miss ++ poll_events (env_activate E) (w_trace w ++ miss) n).
  destruct (env_activate E (w_trace w) popup_title) eqn:Hans.
  - change [hit] with ([hit] ++ @nil event).
    eapply runs_bind.
    { pose proof (runs_AppActivate E popup_title w) as H.
      rewrite Hans in H. exact H. }
    intros w1 _. apply runs_ret.
  - change (miss ++ poll_events (env_activate E) (w_trace w ++ miss) n)
      with ([AppActivate popup_title false] ++
            ([Sleep 500] ++ poll_events (env_activate E) (w_trace w ++ miss) n)).
    eapply runs_bind.
    { pose proof (runs_AppActivate E popup_title w) as H.
      rewrite Hans in H. exact H. }
    intros w1 Hw1. cbv beta iota.
    eapply runs_bind; [apply runs_interact|]. intros w2 Hw2.
    replace (w_trace w ++ miss) with (w_trace w2); [apply IH|].
    rewrite Hw2, Hw1. now rewrite <- app_assoc.
Qed.

(** The wait for an arbitrary window manager. *)
Lemma wait_for_popup_general w :
  let polls := poll_events (env_activate E) (w_trace w) 20 in
  let found := env_activate E (w_trace w ++ polls) popup_title in
  runs (wait_for_popup E) w
       (if found then Ret tt else Raise popup_timeout)
       (polls ++ [AppActivate popup_title found]).
Proof.
  intros polls found. unfold wait_for_popup.
  eapply runs_bind; [apply poll_popup_runs|]. intros w1 Hw1.
  replace [AppActivate popup_title found]
    with ([AppActivate popup_title found] ++ @nil event) by reflexivity.
  eapply runs_bind.
  { pose proof (runs_AppActivate E popup_title w1) as H.
    rewrite Hw1 in H. exact H. }
  intros w2 _. fold polls. fold found.
  destruct found; [apply runs_ret | eexists; apply steps_raise].
Qed.

End Responders.

Lemma schedule_app a b : schedule (a ++ b) = schedule a ++ schedule b.
Proof. apply List.filter_app. Qed.

Lemma poll_events_blind wm n h1 h2 :
  log_blind wm -> schedule h1 = schedule h2 ->
  poll_events wm h1 n = poll_events wm h2 n.
Proof.
  intros Hb. revert h1 h2. induction n as [|n IH]; intros h1 h2 Hs.
  - reflexivity.
  - simpl. rewrite (Hb h1), (Hb h2), Hs.
    rewrite (IH (h1 ++ miss) (h2 ++ miss)); [reflexivity|].
    now rewrite !schedule_app, Hs.
Qed.

Lemma schedule_poll_events wm n h :
  schedule (poll_events wm h n) = poll_events wm h n.
Proof.
  revert h. induction n as [|n IH]; intros h; [reflexivity|].
  change (poll_events wm h (S n))
    with (if wm h popup_title then [hit]
          else miss ++ poll_events wm (h ++ miss) n).
  destruct (wm h popup_title); [reflexivity|].
  rewrite schedule_app, IH. reflexivity.
Qed.

(** ** Claims about the popup responders *)

(** C1, as amended.  With a window manager that lets the expected title
    be activated from the K-th query after the launch on (K at least 1),
    both responders behave as follows.  For K up to 20 the loop stops at
    its K-th query, after K-1 sleeps of half a second; one more query
    confirms the window and the keystrokes follow.  For K = 21 all twenty
    polls of the loop fail, the query made after the loop is the
    twenty-first and succeeds, and the keystrokes follow as well.  Only
    for K above 21 is the timeout raised, and then the log ends with the
    failed twenty-first query: no keystroke is sent. *)
Theorem popup_wait_budget (E0 : environment) (K : nat)
    (cmd password : string) (w : world) :
  (1 <= K)%nat ->
  let E := with_window_manager (popup_after K) E0 in
  ((K <= 20)%nat ->
     runs (run_makecert_authority E cmd password) w (Ret tt)
          (launch_events "run_makecert_authority" cmd ++
           (misses (K - 1) ++ [hit; hit]) ++ authority_answers password) /\
     runs (run_makecert_enduser E cmd password) w (Ret tt)
          (launch_events "run_makecert_enduser" cmd ++
           (misses (K - 1) ++ [hit; hit]) ++ enduser_answers password)) /\
  (K = 21%nat ->
     runs (run_makecert_authority E cmd password) w (Ret tt)
          (launch_events "run_makecert_authority" cmd ++
           (misses 20 ++ [hit]) ++ authority_answers password) /\
     runs (run_makecert_enduser E cmd password) w (Ret tt)
          (launch_events "run_makecert_enduser" cmd ++
           (misses 20 ++ [hit]) ++ enduser_answers password)) /\
  ((21 < K)%nat ->
     runs (run_makecert_authority E cmd password) w (Raise popup_timeout)
          (launch_events "run_makecert_authority" cmd ++
           misses 20 ++ [AppActivate popup_title false]) /\
     runs (run_makecert_enduser E cmd password) w (Raise popup_timeout)
          (launch_events "run_makecert_enduser" cmd ++
           misses 20 ++ [AppActivate popup_title false]) /\
     keystrokes (misses 20 ++ [AppActivate popup_title false]) = []).
Proof.
  intros HK E.
  assert (HA : runs (run_makecert_authority E cmd password) w (wait_result K)
                 (launch_events "run_makecert_authority" cmd ++ wait_events K ++
                  after_wait (wait_result K) (authority_answers password))).
  { apply authority_around_wait. intros w1 Hw1.
    apply wait_for_popup_runs; [|exact HK].
    rewrite Hw1. apply polls_after_launch. }
  assert (HE : runs (run_makecert_enduser E cmd password) w (wait_result K)
                 (launch_events "run_makecert_enduser" cmd ++ wait_events K ++
                  after_wait (wait_result K) (enduser_answers password))).
  { apply enduser_around_wait. intros w1 Hw1.
    apply wait_for_popup_runs; [|exact HK].
    rewrite Hw1. apply polls_after_launch. }
  unfold wait_result, wait_events in HA, HE.
  split; [|split].
  - intros H20.
    assert (H1 : (K <=? 20)%nat = true) by (apply Nat.leb_le; lia).
    assert (H2 : (K <=? 21)%nat = true) by (apply Nat.leb_le; lia).
    rewrite H1, H2 in HA, HE. now split.
  - intros ->. now split.
  - intros H21.
    assert (H1 : (K <=? 20)%nat = false) by (apply Nat.leb_gt; lia).
    assert (H2 : (K <=? 21)%nat = false) by (apply Nat.leb_gt; lia).
    rewrite H1, H2 in HA, HE. simpl after_wait in HA, HE.
    rewrite app_nil_r in HA, HE. now repeat split.
Qed.

(** An instance: the popup shows at the third query. *)
Lemma popup_wait_budget_witness :
  (1 <= 3)%nat /\ (3 <= 20)%nat /\
  runs (run_makecert_authority (with_window_manager (popup_after 3) quiet_env)
          "makecert" "secret") empty_world (Ret tt)
       (launch_events "run_makecert_authority" "makecert" ++
        (misses 2 ++ [hit; hit]) ++ authority_answers "secret").
Proof.
  split; [lia|]. split; [lia|].
  refine (proj1 (proj1 (popup_wait_budget quiet_env 3 "makecert" "secret"
                          empty_world _) _)); lia.
Defined.

(** C1, as the claim has it, fails at K = 21, one more than the budget of
    twenty attempts: the query after the loop finds the window, nothing is
    raised and all eight keystrokes of the authority flow are sent. *)
Lemma popup_wait_budget_counterexample :
  let r := run_makecert_authority
             (with_window_manager (popup_after 21) quiet_env)
             "makecert" "secret" empty_world in
  (20 < 21)%nat /\
  ~ (r.1 = Raise popup_timeout /\ keystrokes (w_trace r.2) = []) /\
  r.1 = Ret tt /\
  keystrokes (w_trace r.2) =
    [SendKeys "secret"; SendKeys "{TAB}"; SendKeys "secret"; SendKeys "{TAB}";
     SendKeys "{ENTER}"; SendKeys "secret"; SendKeys "{TAB}";
     SendKeys "{ENTER}"].
Proof.
  cbv zeta. split; [lia|]. split.
  - intros [H _]. vm_compute in H. discriminate H.
  - split; vm_compute; reflexivity.
Qed.

(** Where the two responders agree and where they part, in general.
    Under any window manager that does not read the Python log, and for
    the same command and password, both responders launch the command
    alike, make the same polls with the same answers and end alike (both
    go on, or both time out).  When they go on, the authority flow sleeps
    0.2 s before its first keystroke and then answers dialogs 1 and 2; the
    end-entity flow starts typing at once, answers dialogs 1 and 2 with
    the very same keystrokes and delays, and then dialog 3. *)
Lemma responders_schedules (E : environment) (cmd password : string)
    (w : world) :
  log_blind (env_activate E) ->
  exists (wait : list event) (r : outcome unit),
    schedule wait = wait /\
    runs (run_makecert_authority E cmd password) w r
         (launch_events "run_makecert_authority" cmd ++ wait ++
          after_wait r (Sleep 200 :: create_password_events password ++
                        enter_password_events password)) /\
    runs (run_makecert_enduser E cmd password) w r
         (launch_events "run_makecert_enduser" cmd ++ wait ++
          after_wait r (create_password_events password ++
                        enter_password_events password ++
                        enter_password_events password)).
Proof.
  intros Hb.
  set (hA := w_trace w ++ launch_events "run_makecert_authority" cmd).
  set (hE := w_trace w ++ launch_events "run_makecert_enduser" cmd).
  assert (Hs : schedule hA = schedule hE)
    by (unfold hA, hE; now rewrite !schedule_app).
  set (polls := poll_events (env_activate E) hA 20).
  assert (Hp : poll_events (env_activate E) hE 20 = polls)
    by (symmetry; now apply poll_events_blind).
  assert (Hsp : schedule polls = polls) by apply schedule_poll_events.
  set (found := env_activate E (hA ++ polls) popup_title).
  assert (Hf : env_activate E (hE ++ polls) popup_title = found).
  { unfold found. rewrite (Hb (hE ++ polls)), (Hb (hA ++ polls)).
    now rewrite !schedule_app, Hs. }
  exists (polls ++ [AppActivate popup_title found]).
  exists (if found then Ret tt else Raise popup_timeout).
  split; [now rewrite schedule_app, Hsp|]. split.
  - apply authority_around_wait. intros w1 Hw1.
    pose proof (wait_for_popup_general E w1) as H. cbv zeta in H.
    fold hA in Hw1. rewrite Hw1 in H. exact H.
  - apply enduser_around_wait. intros w1 Hw1.
    pose proof (wait_for_popup_general E w1) as H. cbv zeta in H.
    fold hE in Hw1. rewrite Hw1, Hp, Hf in H. exact H.
Qed.

Lemma popup_after_log_blind K : log_blind (popup_after K).
Proof.
  intros h title. unfold popup_after, polls_since_launch. f_equal. f_equal.
  f_equal. generalize 0%nat.
  induction h as [|e h IH]; intros acc; [reflexivity|].
  destruct e; simpl; auto.
Qed.

Example responders_schedules_at_first_query :
  log_blind (popup_after 1) /\
  exists (wait : list event) (r : outcome unit),
    schedule wait = wait /\
    runs (run_makecert_authority
            (with_window_manager (popup_after 1) quiet_env)
            "makecert" "secret") empty_world r
         (launch_events "run_makecert_authority" "makecert" ++ wait ++
          after_wait r (Sleep 200 :: create_password_events "secret" ++
                        enter_password_events "secret")) /\
    runs (run_makecert_enduser
            (with_window_manager (popup_after 1) quiet_env)
            "makecert" "secret") empty_world r
         (launch_events "run_makecert_enduser" "makecert" ++ wait ++
          after_wait r (create_password_events "secret" ++
                        enter_password_events "secret" ++
                        enter_password_events "secret")).
Proof.
  split; [apply popup_after_log_blind|].
  apply (responders_schedules
           (with_window_manager (popup_after 1) quiet_env)
           "makecert" "secret" empty_world).
  apply popup_after_log_blind.
Defined.

(** C9.  With the popup there at the first query, the end-entity
    schedule is [first_two] (launch, the two activations, dialogs 1 and 2)
    followed by its third dialog, while the authority schedule is not
    [first_two]: it has one more settle delay of 0.2 s between the
    activation and the first keystroke, which the end-entity variant
    lacks.  The two variants are not the same up to the dialog count. *)
Theorem responders_schedules_differ :
  let E := with_window_manager (popup_after 1) quiet_env in
  let authority :=
    schedule (w_trace (run_makecert_authority E "makecert" "secret"
                         empty_world).2) in
  let enduser :=
    schedule (w_trace (run_makecert_enduser E "makecert" "secret"
                         empty_world).2) in
  let first_two :=
    [ShellRun "makecert" 1 false; hit; hit] ++
    create_password_events "secret" ++ enter_password_events "secret" in
  enduser = first_two ++ enter_password_events "secret" /\
  authority <> first_two /\
  authority =
    [ShellRun "makecert" 1 false; hit; hit] ++ [Sleep 200] ++
    create_password_events "secret" ++ enter_password_events "secret".
Proof.
  cbv zeta. split; [vm_compute; reflexivity|]. split.
  - intros H. vm_compute in H. discriminate H.
  - vm_compute. reflexivity.
Qed.

(** ** sign_code *)

Lemma runs_get_winsdk_path E sdk w :
  env_sdk E = Some sdk ->
  runs (get_winsdk_path E) w (Ret (collapse_backslashes sdk)) [].
Proof.
  intros H. unfold get_winsdk_path. rewrite H. apply runs_ret.
Qed.

Lemma runs_run_process E argv w :
  runs (run_process E argv) w (Ret (env_exec E (w_trace w) argv))
       [Exec argv (env_exec E (w_trace w) argv)].
Proof. eexists. split; reflexivity. Qed.

Section SignLoop.

Variable E : environment.
Variables signtool exe pfx_file password : string.
Variable reply : string -> Z * string * string.
Hypothesis Hreply : signtool_replies E signtool exe pfx_file password reply.

Let skipped := skipped_attempt signtool exe pfx_file password reply.
Let final := last_attempt signtool exe pfx_file password reply.

Lemma runs_popen_communicate turl w :
  runs (popen_communicate E (sign_cmd signtool pfx_file password turl exe)) w
       (Ret (reply turl))
       [Exec (sign_cmd signtool pfx_file password turl exe)
             (Exited (reply turl).1.1 (reply turl).1.2 (reply turl).2)].
Proof.
  unfold popen_communicate.
  rewrite <- (app_nil_r [Exec _ _]).
  eapply runs_bind.
  { pose proof (runs_run_process E
                  (sign_cmd signtool pfx_file password turl exe) w) as H.
    rewrite Hreply in H. exact H. }
  intros w1 _. cbv beta iota.
  destruct (reply turl) as [[c o] e]. apply runs_ret.
Qed.

(** An endpoint whose attempt does not exit with 2 ends the loop. *)
Lemma sign_loop_last turl rest w :
  exit_code reply turl <> 2 ->
  runs (sign_loop E signtool exe pfx_file password (turl :: rest)) w
       (Ret tt) (final turl).
Proof.
  intros Hc. simpl sign_loop. unfold final, last_attempt.
  eapply runs_bind; [apply runs_popen_communicate|].
  intros w1 _. unfold exit_code in Hc.
  destruct (reply turl) as [[c o] e]. simpl in *.
  destruct (c =? 2)%Z eqn:H2; [apply Z.eqb_eq in H2; contradiction|].
  destruct (c =? 0)%Z eqn:H0; simpl negb; cbv iota.
  - eapply runs_bind; [apply runs_ret|]. intros w2 _.
    change [Log DEBUG o] with ([Log DEBUG o] ++ []).
    eapply runs_bind; [apply runs_emit|]. intros w3 _. apply runs_ret.
  - eapply runs_bind.
    { change [Log INFO o; Log ERROR e] with ([Log INFO o] ++ [Log ERROR e]).
      eapply runs_bind; [apply runs_emit|]. intros w2 _. apply runs_emit. }
    intros w2 _.
    change [Log DEBUG o] with ([Log DEBUG o] ++ []).
    eapply runs_bind; [apply runs_emit|]. intros w3 _. apply runs_ret.
Qed.

(** An endpoint whose attempt exits with 2 is logged and passed over. *)
Lemma sign_loop_skip turl rest w r evs :
  exit_code reply turl = 2 ->
  (forall w1, runs (sign_loop E signtool exe pfx_file password rest) w1 r evs) ->
  runs (sign_loop E signtool exe pfx_file password (turl :: rest)) w
       r (skipped turl ++ evs).
Proof.
  intros Hc Hrest. simpl sign_loop. unfold skipped, skipped_attempt.
  change ([?a; ?b] ++ evs) with ([a] ++ ([b] ++ evs)).
  unfold exit_code in Hc.
  pose proof (runs_popen_communicate turl w) as Hp. rewrite Hc in Hp.
  eapply runs_bind; [exact Hp|].
  intros w1 _.
  destruct (reply turl) as [[c o] e]. simpl in *. subst c.
  cbv beta iota. simpl Z.eqb. cbv iota.
  eapply (runs_bind _ _ _ _ [_]); [apply runs_emit|].
  intros w2 _. apply Hrest.
Qed.

Lemma sign_loop_stops pre turl rest w :
  (forall u, In u pre -> exit_code reply u = 2) ->
  exit_code reply turl <> 2 ->
  runs (sign_loop E signtool exe pfx_file password (pre ++ turl :: rest)) w
       (Ret tt) (concat (map skipped pre) ++ final turl).
Proof.
  revert w. induction pre as [|u pre IH]; intros w Hpre Hc.
  - apply sign_loop_last. exact Hc.
  - change ((u :: pre) ++ turl :: rest) with (u :: (pre ++ turl :: rest)).
    change (concat (map skipped (u :: pre)) ++ final turl)
      with ((skipped u ++ concat (map skipped pre)) ++ final turl).
    rewrite <- app_assoc.
    apply sign_loop_skip; [apply Hpre; now left|].
    intros w1. apply IH; [|exact Hc]. intros v Hv. apply Hpre. now right.
Qed.

Lemma sign_loop_exhausted urls w :
  (forall u, In u urls -> exit_code reply u = 2) ->
  runs (sign_loop E signtool exe pfx_file password urls) w
       (Raise (retries_exhausted exe)) (concat (map skipped urls)).
Proof.
  revert w. induction urls as [|u urls IH]; intros w Hall.
  - eexists. apply steps_raise.
  - change (concat (map skipped (u :: urls)))
      with (skipped u ++ concat (map skipped urls)).
    apply sign_loop_skip; [apply Hall; now left|].
    intros w1. apply IH. intros v Hv. apply Hall. now right.
Qed.

Lemma invocations_app a b : invocations (a ++ b) = invocations a ++ invocations b.
Proof.
  induction a as [|e a IH]; [reflexivity|].
  destruct e; simpl; now rewrite ?IH.
Qed.

Lemma invocations_skipped pre :
  invocations (concat (map skipped pre)) =
  map (fun turl => sign_cmd signtool pfx_file password turl exe) pre.
Proof.
  induction pre as [|u pre IH]; [reflexivity|].
  change (concat (map skipped (u :: pre)))
    with (skipped u ++ concat (map skipped pre)).
  rewrite invocations_app, IH. reflexivity.
Qed.

Lemma invocations_final turl :
  invocations (final turl) = [sign_cmd signtool pfx_file password turl exe].
Proof.
  unfold final, last_attempt.
  destruct ((reply turl).1.1 =? 0)%Z; reflexivity.
Qed.

End SignLoop.

Lemma sign_code_as_loop E sdk exe pfx_file password w :
  env_sdk E = Some sdk ->
  sign_code E exe pfx_file password w =
  sign_loop E (signtool_path sdk) exe pfx_file password timestamp_urls w.
Proof.
  intros H. unfold sign_code, bind, get_winsdk_path. rewrite H. reflexivity.
Qed.

Lemma runs_ext {A} (m m' : M A) w r evs :
  m w = m' w -> runs m' w r evs -> runs m w r evs.
Proof. intros H [w' [Hs Ht]]. exists w'. split; [now rewrite H | exact Ht]. Qed.

(** The endpoints before position [N], the one at [N], and the rest. *)
Lemma timestamp_urls_split N :
  (N < length timestamp_urls)%nat ->
  timestamp_urls =
  take N timestamp_urls ++ nth N timestamp_urls EmptyString ::
  drop (S N) timestamp_urls.
Proof.
  intros H. destruct N as [|[|[|[|N]]]]; try reflexivity.
  simpl in H. lia.
Qed.

(** C2, as amended.  When the first N endpoints exit with 2 and the next
    one exits with any other status, sign_code stops at that endpoint: the
    N skipped attempts are followed by this one attempt and no later
    endpoint is tried.  If that status is not zero, standard output is
    logged at INFO and standard error at ERROR before the closing DEBUG
    line, and the function still returns without raising.  Exit status 2
    is the only one that moves the loop on to the next endpoint. *)
Theorem sign_code_stops_at_error (E : environment)
    (sdk exe pfx_file password : string)
    (reply : string -> Z * string * string) (w : world) (N : nat) :
  env_sdk E = Some sdk ->
  signtool_replies E (signtool_path sdk) exe pfx_file password reply ->
  (N < length timestamp_urls)%nat ->
  (forall turl, In turl (take N timestamp_urls) -> exit_code reply turl = 2) ->
  let turl := nth N timestamp_urls EmptyString in
  let cmd := fun u => sign_cmd (signtool_path sdk) pfx_file password u exe in
  let skipped :=
    concat (map (skipped_attempt (signtool_path sdk) exe pfx_file password
                   reply) (take N timestamp_urls)) in
  exit_code reply turl <> 2 ->
  exists evs,
    runs (sign_code E exe pfx_file password) w (Ret tt) evs /\
    invocations evs = map cmd (take (S N) timestamp_urls) /\
    (exit_code reply turl <> 0 ->
     evs = skipped ++
           [Exec (cmd turl)
                 (Exited (reply turl).1.1 (reply turl).1.2 (reply turl).2);
            Log INFO (reply turl).1.2; Log ERROR (reply turl).2;
            Log DEBUG (reply turl).1.2]).
Proof.
  intros Hsdk Hreply HN Hpre turl cmd skipped Hc.
  exists (skipped ++ last_attempt (signtool_path sdk) exe pfx_file password
                       reply turl).
  split; [|split].
  - eapply runs_ext; [apply (sign_code_as_loop _ _ _ _ _ _ Hsdk)|].
    rewrite (timestamp_urls_split N HN) at 1.
    now apply sign_loop_stops.
  - unfold skipped.
    rewrite invocations_app, invocations_skipped, invocations_final.
    fold cmd. subst turl. clear -HN.
    destruct N as [|[|[|[|N]]]]; try reflexivity. simpl in HN. lia.
  - intros H0. unfold last_attempt. unfold exit_code in H0.
    destruct ((reply turl).1.1 =? 0)%Z eqn:Hz;
      [apply Z.eqb_eq in Hz; contradiction | reflexivity].
Qed.

Lemma exec_by_url_replies code E signtool exe pfx_file password :
  signtool_replies (with_processes (exec_by_url code) E) signtool exe pfx_file
    password (fun turl => (code turl, "out", "err")).
Proof. intros h turl. reflexivity. Qed.

Lemma sign_code_stops_at_error_witness :
  let E := with_processes (exec_by_url skip_then_error) quiet_env in
  env_sdk E = Some "C:\SDK" /\
  (1 < length timestamp_urls)%nat /\
  exists evs,
    runs (sign_code E "app.exe" "my.pfx" "secret") empty_world (Ret tt) evs /\
    length (invocations evs) = 2%nat.
Proof.
  cbv zeta. split; [reflexivity|]. split; [simpl; lia|].
  destruct (sign_code_stops_at_error
              (with_processes (exec_by_url skip_then_error) quiet_env)
              "C:\SDK" "app.exe" "my.pfx" "secret"
              (fun turl => (skip_then_error turl, "out", "err"))
              empty_world 1)
    as [evs [Hr [Hi _]]].
  - reflexivity.
  - apply exec_by_url_replies.
  - simpl; lia.
  - intros turl [<-|[]]. reflexivity.
  - intros H. discriminate H.
  - exists evs. split; [exact Hr|]. rewrite Hi. reflexivity.
Defined.

(** C2, as the claim has it, fails when the first endpoint exits with 1:
    sign_code returns at once, and the second endpoint is never tried. *)
Lemma sign_code_stops_at_error_counterexample :
  let E := with_processes (exec_by_url (fun _ => 1)) quiet_env in
  let r := sign_code E "app.exe" "my.pfx" "secret" empty_world in
  r.1 = Ret tt /\
  invocations (w_trace r.2) =
    [sign_cmd (signtool_path "C:\SDK") "my.pfx" "secret" first_url "app.exe"] /\
  w_trace r.2 =
    [Exec (sign_cmd (signtool_path "C:\SDK") "my.pfx" "secret" first_url
             "app.exe") (Exited 1 "out" "err");
     Log INFO "out"; Log ERROR "err"; Log DEBUG "out"].
Proof. cbv zeta. repeat split; vm_compute; reflexivity. Qed.

(** C3, as amended.  If the first N endpoints of the list exit with 2 and
    endpoint N+1 exits with 0, sign_code returns after exactly N+1
    invocations of signtool, those for the first N+1 endpoints in order.
    If all endpoints exit with 2, it raises the exhausted-retries error
    after one invocation per endpoint, four in all. *)
Theorem sign_code_attempts (E : environment)
    (sdk exe pfx_file password : string)
    (reply : string -> Z * string * string) (w : world) (N : nat) :
  env_sdk E = Some sdk ->
  signtool_replies E (signtool_path sdk) exe pfx_file password reply ->
  (forall turl, In turl (take N timestamp_urls) -> exit_code reply turl = 2) ->
  let cmd := fun u => sign_cmd (signtool_path sdk) pfx_file password u exe in
  ((N < length timestamp_urls)%nat ->
   exit_code reply (nth N timestamp_urls EmptyString) = 0 ->
   exists evs,
     runs (sign_code E exe pfx_file password) w (Ret tt) evs /\
     invocations evs = map cmd (take (S N) timestamp_urls) /\
     length (invocations evs) = S N) /\
  ((length timestamp_urls <= N)%nat ->
   exists evs,
     runs (sign_code E exe pfx_file password) w
          (Raise (retries_exhausted exe)) evs /\
     invocations evs = map cmd timestamp_urls /\
     length (invocations evs) = length timestamp_urls).
Proof.
  intros Hsdk Hreply Hpre cmd. split.
  - intros HN H0.
    exists (concat (map (skipped_attempt (signtool_path sdk) exe pfx_file
                           password reply) (take N timestamp_urls)) ++
            last_attempt (signtool_path sdk) exe pfx_file password reply
              (nth N timestamp_urls EmptyString)).
    assert (Hi : invocations
                   (concat (map (skipped_attempt (signtool_path sdk) exe
                                   pfx_file password reply)
                              (take N timestamp_urls)) ++
                    last_attempt (signtool_path sdk) exe pfx_file password
                      reply (nth N timestamp_urls EmptyString)) =
                 map cmd (take (S N) timestamp_urls)).
    { rewrite invocations_app, invocations_skipped, invocations_final.
      fold cmd. clear -HN.
      destruct N as [|[|[|[|N]]]]; try reflexivity. simpl in HN. lia. }
    split; [|split].
    + eapply runs_ext; [apply (sign_code_as_loop _ _ _ _ _ _ Hsdk)|].
      rewrite (timestamp_urls_split N HN) at 1.
      apply sign_loop_stops; [exact Hreply | exact Hpre |].
      rewrite H0. discriminate.
    + exact Hi.
    + rewrite Hi, length_map, length_take. lia.
  - intros HN.
    exists (concat (map (skipped_attempt (signtool_path sdk) exe pfx_file
                           password reply) timestamp_urls)).
    rewrite take_ge in Hpre by exact HN.
    split; [|split].
    + eapply runs_ext; [apply (sign_code_as_loop _ _ _ _ _ _ Hsdk)|].
      now apply sign_loop_exhausted.
    + apply invocations_skipped.
    + now rewrite invocations_skipped, length_map.
Qed.

Lemma sign_code_attempts_witness :
  let E := with_processes (exec_by_url skip_then_ok) quiet_env in
  env_sdk E = Some "C:\SDK" /\
  (1 < length timestamp_urls)%nat /\
  exists evs,
    runs (sign_code E "app.exe" "my.pfx" "secret") empty_world (Ret tt) evs /\
    length (invocations evs) = 2%nat.
Proof.
  cbv zeta. split; [reflexivity|]. split; [simpl; lia|].
  destruct (proj1 (sign_code_attempts
              (with_processes (exec_by_url skip_then_ok) quiet_env)
              "C:\SDK" "app.exe" "my.pfx" "secret"
              (fun turl => (skip_then_ok turl, "out", "err"))
              empty_world 1 eq_refl
              (exec_by_url_replies skip_then_ok quiet_env _ _ _ _)
              (fun turl H => match H with
                             | or_introl e => f_equal _ (eq_sym e)
                             | or_intror f => match f with end
                             end)))
    as [evs [Hr [_ Hl]]].
  - simpl; lia.
  - reflexivity.
  - exists evs. split; [exact Hr | exact Hl].
Defined.

(** C3, as the claim has it, fails when the one endpoint before the
    working one fails with a status other than 2: with the first endpoint
    exiting with 1 and the second with 0, the claim has two invocations,
    and sign_code makes one and never reaches the working endpoint. *)
Lemma sign_code_attempts_counterexample :
  let E := with_processes (exec_by_url error_then_ok) quiet_env in
  let r := sign_code E "app.exe" "my.pfx" "secret" empty_world in
  error_then_ok (nth 0 timestamp_urls EmptyString) <> 0 /\
  error_then_ok (nth 1 timestamp_urls EmptyString) = 0 /\
  length (invocations (w_trace r.2)) = 1%nat /\
  length (invocations (w_trace r.2)) <> 2%nat.
Proof.
  cbv zeta. split; [intros H; discriminate H|].
  split; [reflexivity|]. split; [vm_compute; reflexivity|].
  intros H. vm_compute in H. discriminate H.
Qed.

(** ** The serial-number pattern *)

Lemma append_cons c (a b : string) : String c a +:+ b = String c (a +:+ b).
Proof. reflexivity. Qed.

Lemma append_nil (b : string) : EmptyString +:+ b = b.
Proof. reflexivity. Qed.

Lemma span_hex_app s g r :
  span_hex s = (g, r) -> s = g +:+ r.
Proof.
  revert g r. induction s as [|c s IH]; intros g r H; simpl in H.
  - now inversion H.
  - destruct (in_hex_class c).
    + destruct (span_hex s) as [g' r'] eqn:Hs. inversion H; subst.
      rewrite append_cons. f_equal. now apply IH.
    + now inversion H.
Qed.

Lemma span_hex_class s g r :
  span_hex s = (g, r) -> forallb in_hex_class (list_ascii_of_string g) = true.
Proof.
  revert g r. induction s as [|c s IH]; intros g r H; simpl in H.
  - now inversion H.
  - destruct (in_hex_class c) eqn:Hc.
    + destruct (span_hex s) as [g' r'] eqn:Hs. inversion H; subst.
      simpl. rewrite Hc. simpl. now apply (IH g' r).
    + now inversion H.
Qed.

Lemma span_hex_all s :
  forallb in_hex_class (list_ascii_of_string s) = true ->
  span_hex s = (s, EmptyString).
Proof.
  induction s as [|c s IH]; intros H; simpl in *; [reflexivity|].
  apply andb_true_iff in H as [Hc Hs]. rewrite Hc, (IH Hs). reflexivity.
Qed.

Lemma strip_prefix_app p s t : strip_prefix p s = Some t -> s = p +:+ t.
Proof.
  revert s. induction p as [|a p IH]; intros s H; simpl in H.
  - now inversion H.
  - destruct s as [|b s]; [discriminate|].
    destruct (Ascii.eqb a b) eqn:Hab; [|discriminate].
    apply Ascii.eqb_eq in Hab. subst b. rewrite append_cons. f_equal.
    now apply IH.
Qed.

Lemma list_ascii_app a b :
  list_ascii_of_string (a +:+ b) =
  list_ascii_of_string a ++ list_ascii_of_string b.
Proof.
  induction a as [|c a IH]; [reflexivity|].
  rewrite append_cons. simpl. now rewrite IH.
Qed.

Lemma string_app_nil_r (s : string) : s +:+ EmptyString = s.
Proof.
  induction s as [|c s IH]; [reflexivity|]. now rewrite append_cons, IH.
Qed.

(** On a line without a newline the regular expression and the pattern in
    words accept the same lines. *)
Lemma match_serial_is_serial_line line :
  no_newline line ->
  (exists g, match_serial line = Some g) <-> is_serial_line line = true.
Proof.
  intros Hnl. unfold match_serial, is_serial_line.
  destruct (strip_prefix serial_prefix line) as [t|] eqn:Hp.
  2:{ split; [intros [g H]; discriminate | discriminate]. }
  destruct (span_hex t) as [g rest] eqn:Hs.
  pose proof (span_hex_app _ _ _ Hs) as Happ.
  pose proof (span_hex_class _ _ _ Hs) as Hcl.
  split.
  - intros [g' H]. destruct g as [|c g]; [discriminate|].
    destruct rest as [|c' rest].
    + rewrite string_app_nil_r in Happ. subst t. now rewrite Hcl.
    + exfalso. simpl in H. destruct rest; [|discriminate].
      destruct (Ascii.eqb c' newline) eqn:Hn; [|discriminate].
      apply Ascii.eqb_eq in Hn. subst c'. apply Hnl.
      rewrite (strip_prefix_app _ _ _ Hp), Happ, !list_ascii_app.
      apply in_or_app. right. apply in_or_app. right. now left.
  - intros H. apply andb_true_iff in H as [Hne Hall].
    rewrite (span_hex_all _ Hall) in Hs. inversion Hs; subst g rest.
    destruct t as [|c t]; [discriminate|]. now exists (String c t).
Qed.

Lemma split_lines_no_newline s line :
  In line (split_lines s) -> no_newline line.
Proof.
  revert line. induction s as [|c s IH]; intros line H; simpl in H.
  - destruct H as [<-|[]]. intros [].
  - destruct (Ascii.eqb c newline) eqn:Hc.
    + destruct H as [<-|H]; [intros [] | now apply IH].
    + destruct (split_lines s) as [|hd tl] eqn:Hs.
      * destruct H as [<-|[]]. intros [H|[]].
        subst c. now rewrite Ascii.eqb_refl in Hc.
      * destruct H as [<-|H].
        -- intros [H|H].
           ++ subst c. now rewrite Ascii.eqb_refl in Hc.
           ++ apply (IH hd); [now left | exact H].
        -- apply IH. now right.
Qed.

Lemma collect_serials_length lines acc :
  (forall line, In line lines -> no_newline line) ->
  length (collect_serials lines acc) =
  (length acc + length (List.filter is_serial_line lines))%nat.
Proof.
  revert acc. induction lines as [|line lines IH]; intros acc Hnl.
  - simpl. lia.
  - simpl.
    pose proof (match_serial_is_serial_line line (Hnl line (or_introl eq_refl)))
      as Hiff.
    destruct (match_serial line) as [g|] eqn:Hm.
    + rewrite (proj1 Hiff (ex_intro _ g eq_refl)).
      rewrite IH by (intros l Hl; apply Hnl; now right).
      rewrite length_app. simpl. lia.
    + destruct (is_serial_line line) eqn:Hl.
      * destruct (proj2 Hiff eq_refl) as [g Hg]. discriminate.
      * apply IH. intros l Hl'. apply Hnl. now right.
Qed.

(** ** The store adapter *)

Section StoreAdapter.

Variable E : environment.

Lemma runs_check_output_ok argv out err w :
  env_exec E (w_trace w) argv = Exited 0 out err ->
  runs (check_output E argv) w (Ret out) [Exec argv (Exited 0 out err)].
Proof.
  intros H. unfold check_output.
  rewrite <- (app_nil_r [Exec _ _]).
  eapply runs_bind.
  { pose proof (runs_run_process E argv w) as Hp. rewrite H in Hp. exact Hp. }
  intros w1 _. apply runs_ret.
Qed.

Lemma runs_check_output_fail argv r w :
  env_exec E (w_trace w) argv = r -> exit_ok r = false ->
  runs (check_output E argv) w (Raise (check_output_error argv r))
       [Exec argv r].
Proof.
  intros H Hr. unfold check_output.
  rewrite <- (app_nil_r [Exec _ _]).
  eapply runs_bind.
  { pose proof (runs_run_process E argv w) as Hp. rewrite H in Hp. exact Hp. }
  intros w1 _. destruct r as [code out err|]; simpl in *.
  - rewrite Hr. eexists. apply steps_raise.
  - eexists. apply steps_raise.
Qed.

Variable reply : string -> string -> proc_result.
Hypothesis Hreply : delstore_replies E reply.

Lemma exit_ok_inv r : exit_ok r = true -> exists out err, r = Exited 0 out err.
Proof.
  destruct r as [code out err|]; simpl; [|discriminate].
  intros H. apply Z.eqb_eq in H. subst. eauto.
Qed.

Lemma delete_serials_step store snum rest w r evs :
  exit_ok (reply store snum) = true ->
  (forall w1, runs (delete_serials E store rest) w1 r evs) ->
  runs (delete_serials E store (snum :: rest)) w r
       (delete_attempt reply store snum ++ evs).
Proof.
  intros Hok Hrest. simpl delete_serials. unfold delete_attempt.
  destruct (exit_ok_inv _ Hok) as [out [err Hr]].
  eapply (runs_bind _ _ _ _ [_]); [apply runs_emit|]. intros w1 _.
  eapply (runs_bind _ _ _ _ [_]).
  { rewrite Hr. apply runs_check_output_ok. now rewrite Hreply. }
  intros w2 _. apply Hrest.
Qed.

Lemma delete_serials_all store snums w :
  (forall s, In s snums -> exit_ok (reply store s) = true) ->
  runs (delete_serials E store snums) w (Ret tt)
       (delete_attempts reply store snums).
Proof.
  revert w. induction snums as [|s snums IH]; intros w Hall.
  - apply runs_ret.
  - change (delete_attempts reply store (s :: snums))
      with (delete_attempt reply store s ++ delete_attempts reply store snums).
    apply delete_serials_step; [apply Hall; now left|].
    intros w1. apply IH. intros u Hu. apply Hall. now right.
Qed.

Lemma delete_serials_fail store pre s rest w :
  (forall u, In u pre -> exit_ok (reply store u) = true) ->
  exit_ok (reply store s) = false ->
  runs (delete_serials E store (pre ++ s :: rest)) w
       (Raise (check_output_error (delstore_cmd store s) (reply store s)))
       (delete_attempts reply store (pre ++ [s])).
Proof.
  revert w. induction pre as [|u pre IH]; intros w Hpre Hs.
  - simpl app. simpl delete_serials.
    change (delete_attempts reply store [s])
      with ([Log DEBUG ("delete certificate " +:+ s)] ++
            [Exec (delstore_cmd store s) (reply store s)]).
    eapply runs_bind; [apply runs_emit|]. intros w1 _.
    apply runs_bind_raise. apply runs_check_output_fail; [apply Hreply|exact Hs].
  - change ((u :: pre) ++ s :: rest) with (u :: (pre ++ s :: rest)).
    change (delete_attempts reply store ((u :: pre) ++ [s]))
      with (delete_attempt reply store u ++
            delete_attempts reply store (pre ++ [s])).
    apply delete_serials_step; [apply Hpre; now left|].
    intros w1. apply IH; [|exact Hs]. intros v Hv. apply Hpre. now right.
Qed.

Lemma remove_cert_fromstore_none certid store listing err w :
  env_exec E (w_trace w) (store_cmd store certid) = Exited 0 listing err ->
  serials_of listing = [] ->
  runs (remove_cert_fromstore E certid store) w (Raise (no_match certid))
       [Exec (store_cmd store certid) (Exited 0 listing err)].
Proof.
  intros Hq Hs. unfold remove_cert_fromstore.
  rewrite <- (app_nil_r [Exec _ _]).
  eapply runs_bind; [now apply runs_check_output_ok|].
  intros w1 _. cbv zeta. fold (serials_of listing). rewrite Hs.
  eexists. apply steps_raise.
Qed.

Lemma remove_cert_fromstore_some certid store listing err w r evs :
  env_exec E (w_trace w) (store_cmd store certid) = Exited 0 listing err ->
  serials_of listing <> [] ->
  (forall w1, runs (delete_serials E store (serials_of listing)) w1 r evs) ->
  runs (remove_cert_fromstore E certid store) w r
       (Exec (store_cmd store certid) (Exited 0 listing err) :: evs).
Proof.
  intros Hq Hs Hdel. unfold remove_cert_fromstore.
  eapply (runs_bind _ _ _ _ [_]); [now apply runs_check_output_ok|].
  intros w1 _. cbv zeta. fold (serials_of listing).
  specialize (Hdel w1).
  destruct (serials_of listing) as [|s l]; [contradiction | exact Hdel].
Qed.

End StoreAdapter.

Lemma invocations_delete_attempts reply store snums :
  invocations (delete_attempts reply store snums) =
  map (delstore_cmd store) snums.
Proof.
  induction snums as [|s snums IH]; [reflexivity|].
  change (delete_attempts reply store (s :: snums))
    with (delete_attempt reply store s ++ delete_attempts reply store snums).
  rewrite invocations_app, IH. reflexivity.
Qed.

Lemma collect_serials_omap lines acc :
  collect_serials lines acc = acc ++ omap match_serial lines.
Proof.
  revert acc. induction lines as [|line lines IH]; intros acc.
  - now rewrite app_nil_r.
  - simpl. destruct (match_serial line) as [g|].
    + rewrite IH, <- app_assoc. reflexivity.
    + apply IH.
Qed.

Lemma match_serial_line line g :
  no_newline line -> match_serial line = Some g ->
  line = serial_prefix +:+ g.
Proof.
  intros Hnl. unfold match_serial.
  destruct (strip_prefix serial_prefix line) as [t|] eqn:Hp; [|discriminate].
  destruct (span_hex t) as [g' rest] eqn:Hs.
  pose proof (span_hex_app _ _ _ Hs) as Happ.
  apply strip_prefix_app in Hp.
  destruct g' as [|c g']; [discriminate|].
  destruct rest as [|c' rest].
  - intros H. inversion H; subst g.
    now rewrite Hp, Happ, string_app_nil_r.
  - simpl. destruct rest; [|discriminate].
    destruct (Ascii.eqb c' newline) eqn:Hn; [|discriminate].
    intros _. exfalso. apply Ascii.eqb_eq in Hn. subst c'. apply Hnl.
    rewrite Hp, Happ, !list_ascii_app.
    apply in_or_app. right. apply in_or_app. right. now left.
Qed.


(** *** The deletes under any environment *)

Section StoreAny.

Variable E : environment.

Lemma delete_serials_any store snums w :
  exists r evs k,
    runs (delete_serials E store snums) w r evs /\
    (k <= length snums)%nat /\
    invocations evs = map (delstore_cmd store) (take k snums) /\
    (r = Ret tt -> k = length snums) /\
    (forall e, r = Raise e -> (1 <= k)%nat /\
       exists s res, snums !! (k - 1)%nat = Some s /\ exit_ok res = false /\
                     e = check_output_error (delstore_cmd store s) res).
Proof.
  revert w. induction snums as [|s rest IH]; intros w.
  - exists (Ret tt), [], 0%nat.
    split; [apply runs_ret|]. split; [simpl; lia|]. split; [reflexivity|].
    split; [reflexivity | discriminate].
  - set (w0 := mkWorld (w_trace w ++ [Log DEBUG ("delete certificate " +:+ s)])
                       (w_fs w)).
    destruct (env_exec E (w_trace w0) (delstore_cmd store s)) as [code out err|]
      eqn:Hres.
    + destruct (code =? 0)%Z eqn:H0.
      * set (w1 := mkWorld
                     (w_trace w0 ++
                      [Exec (delstore_cmd store s) (Exited code out err)])
                     (env_step E
                        (w_trace w0 ++
                         [Exec (delstore_cmd store s) (Exited code out err)])
                        (w_fs w0))).
        destruct (IH w1) as (r & evs & k & [w2 [Hrun Htr]] & Hk & Hinv & Hr & He).
        exists r, ([Log DEBUG ("delete certificate " +:+ s);
                    Exec (delstore_cmd store s) (Exited code out err)] ++ evs),
          (S k).
        split; [|split; [|split; [|split]]].
        -- exists w2. split.
           ++ simpl delete_serials.
              unfold bind, log, emit, check_output, bind, run_process,
                interact, ret, raise.
              cbv beta zeta iota. fold w0. rewrite Hres.
              cbv beta iota. rewrite H0. exact Hrun.
           ++ rewrite Htr. unfold w1, w0. simpl w_trace.
              now rewrite <- !app_assoc.
        -- simpl. lia.
        -- rewrite invocations_app, Hinv. reflexivity.
        -- intros Hret. simpl. now rewrite (Hr Hret).
        -- intros e Hraise. destruct (He e Hraise) as (Hk1 & s' & res & Hl & Hx & Hee).
           split; [lia|]. exists s', res. split; [|now split].
           destruct k as [|k]; [lia|]. simpl in *.
           now rewrite Nat.sub_0_r in *.
      * exists (Raise (CalledProcessError code (delstore_cmd store s) out)),
          [Log DEBUG ("delete certificate " +:+ s);
           Exec (delstore_cmd store s) (Exited code out err)], 1%nat.
        split; [|split; [|split; [|split]]].
        -- eexists. split.
           ++ simpl delete_serials.
              unfold bind, log, emit, check_output, bind, run_process,
                interact, ret, raise.
              cbv beta zeta iota. fold w0. rewrite Hres.
              cbv beta iota. rewrite H0. reflexivity.
           ++ simpl. now rewrite <- !app_assoc.
        -- simpl. lia.
        -- reflexivity.
        -- discriminate.
        -- intros e He. inversion He; subst e. split; [lia|].
           exists s, (Exited code out err). split; [reflexivity|].
           split; [simpl; exact H0 | reflexivity].
    + exists (Raise OSError),
        [Log DEBUG ("delete certificate " +:+ s);
         Exec (delstore_cmd store s) SpawnFailed], 1%nat.
      split; [|split; [|split; [|split]]].
      * eexists. split.
        -- simpl delete_serials.
           unfold bind, log, emit, check_output, bind, run_process,
             interact, ret, raise.
           cbv beta zeta iota. fold w0. rewrite Hres. reflexivity.
        -- simpl. now rewrite <- !app_assoc.
      * simpl. lia.
      * reflexivity.
      * discriminate.
      * intros e He. inversion He; subst e. split; [lia|].
        exists s, SpawnFailed. split; [reflexivity|]. now split.
Qed.

End StoreAny.

Lemma runs_check_output_bind_fail E certid store res w :
  env_exec E (w_trace w) (store_cmd store certid) = res ->
  exit_ok res = false ->
  runs (remove_cert_fromstore E certid store) w
       (Raise (check_output_error (store_cmd store certid) res))
       [Exec (store_cmd store certid) res].
Proof.
  intros Hres Hok. unfold remove_cert_fromstore.
  apply runs_bind_raise. now apply runs_check_output_fail.
Qed.

(** What a run of remove_cert_fromstore comes to, whatever certutil
    does. *)
Lemma remove_cert_fromstore_any (E : environment)
    (certid store : string) (w : world) :
  let query := store_cmd store certid in
  let res := env_exec E (w_trace w) query in
  let snums := listed_serials res in
  exists r evs k,
    runs (remove_cert_fromstore E certid store) w r evs /\
    (k <= length snums)%nat /\
    invocations evs = query :: map (delstore_cmd store) (take k snums) /\
    (exit_ok res = false ->
     r = Raise (check_output_error query res) /\ evs = [Exec query res]) /\
    (r = Ret tt -> snums <> [] /\ k = length snums) /\
    (forall e, r = Raise e -> (1 <= k)%nat ->
       exists s dres, snums !! (k - 1)%nat = Some s /\ exit_ok dres = false /\
                      e = check_output_error (delstore_cmd store s) dres) /\
    (exit_ok res = true -> snums <> [] -> (1 <= k)%nat).
Proof.
  cbv zeta. set (query := store_cmd store certid).
  destruct (env_exec E (w_trace w) query) as [code listing err|] eqn:Hres.
  - unfold listed_serials, exit_ok. destruct (code =? 0)%Z eqn:H0.
    + apply Z.eqb_eq in H0. subst code.
      destruct (serials_of listing) as [|s0 rest] eqn:Hsn.
      * exists (Raise (no_match certid)), [Exec query (Exited 0 listing err)],
          0%nat.
        split; [|split; [|split; [|split; [|split; [|split]]]]].
        -- apply remove_cert_fromstore_none; [exact Hres | exact Hsn].
        -- simpl. lia.
        -- reflexivity.
        -- discriminate.
        -- discriminate.
        -- intros e _ Hk. lia.
        -- intros _ H. now contradiction H.
      * set (w1 := mkWorld (w_trace w ++ [Exec query (Exited 0 listing err)])
                     (env_step E
                        (w_trace w ++ [Exec query (Exited 0 listing err)])
                        (w_fs w))).
        destruct (delete_serials_any E store (s0 :: rest) w1)
          as (r & evs & k & [w2 [Hrun Htr]] & Hk & Hinv & Hr & He).
        exists r, (Exec query (Exited 0 listing err) :: evs), k.
        split; [|split; [|split; [|split; [|split; [|split]]]]].
        -- exists w2. split.
           ++ unfold remove_cert_fromstore, bind at 1.
              unfold check_output, bind, run_process, interact, ret.
              cbv beta zeta iota. fold query. rewrite Hres.
              cbv beta iota. change (0 =? 0)%Z with true. cbv beta iota.
              fold (serials_of listing). rewrite Hsn.
              exact Hrun.
           ++ rewrite Htr. unfold w1. simpl w_trace.
              now rewrite <- app_assoc.
        -- exact Hk.
        -- simpl. now rewrite Hinv.
        -- discriminate.
        -- intros Hret. split; [discriminate | now apply Hr].
        -- intros e Hraise _. destruct (He e Hraise) as (_ & H). exact H.
        -- intros _ _. destruct r as [[]|e].
           ++ rewrite (Hr eq_refl). simpl. lia.
           ++ apply (He e eq_refl).
    + exists (Raise (CalledProcessError code query listing)),
        [Exec query (Exited code listing err)], 0%nat.
      split; [|split; [|split; [|split; [|split; [|split]]]]].
      * apply (runs_check_output_bind_fail E certid store _ w Hres).
        simpl. exact H0.
      * simpl. lia.
      * reflexivity.
      * intros _. now split.
      * discriminate.
      * intros e _ Hk. lia.
      * discriminate.
  - exists (Raise OSError), [Exec query SpawnFailed], 0%nat.
    split; [|split; [|split; [|split; [|split; [|split]]]]].
    + apply (runs_check_output_bind_fail E certid store _ w Hres).
      reflexivity.
    + simpl. lia.
    + reflexivity.
    + intros _. now split.
    + discriminate.
    + intros e _ Hk. lia.
    + discriminate.
Qed.



(** C10, as amended.  The serial numbers are those of the matching lines
    in the order of the listing.  With none, the no-match error is raised
    right after the query and no delete is invoked.  Otherwise the deletes
    are invoked in that order, one per serial number: all of them when
    each delete exits with 0, and only those up to and including the first
    delete that does not, whose error ends the function. *)
Theorem remove_cert_fromstore_deletes (E : environment)
    (certid store listing err : string)
    (reply : string -> string -> proc_result) (w : world) :
  env_exec E (w_trace w) (store_cmd store certid) = Exited 0 listing err ->
  delstore_replies E reply ->
  let query := Exec (store_cmd store certid) (Exited 0 listing err) in
  let snums := serials_of listing in
  snums = omap match_serial (split_lines listing) /\
  (snums = [] ->
   runs (remove_cert_fromstore E certid store) w (Raise (no_match certid))
        [query]) /\
  (snums <> [] ->
   (forall s, In s snums -> exit_ok (reply store s) = true) ->
   runs (remove_cert_fromstore E certid store) w (Ret tt)
        (query :: delete_attempts reply store snums) /\
   invocations (query :: delete_attempts reply store snums) =
     store_cmd store certid :: map (delstore_cmd store) snums) /\
  (forall pre s rest,
     snums = pre ++ s :: rest ->
     (forall u, In u pre -> exit_ok (reply store u) = true) ->
     exit_ok (reply store s) = false ->
     runs (remove_cert_fromstore E certid store) w
          (Raise (check_output_error (delstore_cmd store s) (reply store s)))
          (query :: delete_attempts reply store (pre ++ [s])) /\
     invocations (query :: delete_attempts reply store (pre ++ [s])) =
       store_cmd store certid :: map (delstore_cmd store) (pre ++ [s])).
Proof.
  intros Hq Hreply query snums. split; [|split; [|split]].
  - apply (collect_serials_omap _ []).
  - intros Hnone. now apply remove_cert_fromstore_none.
  - intros Hsome Hall. split.
    + apply remove_cert_fromstore_some; [exact Hq | exact Hsome |].
      intros w1. now apply delete_serials_all.
    + simpl. now rewrite invocations_delete_attempts.
  - intros pre s rest Hsplit Hpre Hs. split.
    + apply remove_cert_fromstore_some; [exact Hq | |].
      * fold snums. rewrite Hsplit. now destruct pre.
      * intros w1. fold snums. rewrite Hsplit.
        now apply delete_serials_fail.
    + simpl. now rewrite invocations_delete_attempts.
Qed.

Lemma exec_certutil_delstore listing del_code E :
  delstore_replies (with_processes (exec_certutil listing del_code) E)
    (fun _ snum => Exited (del_code snum) EmptyString EmptyString).
Proof. intros h store snum. reflexivity. Qed.

Lemma remove_cert_fromstore_deletes_witness :
  let E := with_processes (exec_certutil (fun _ => two_serials) (fun _ => 0))
             quiet_env in
  serials_of two_serials = ["01"; "02"] /\
  runs (remove_cert_fromstore E "1a2b" "Root") empty_world (Ret tt)
       [Exec (store_cmd "Root" "1a2b") (Exited 0 two_serials EmptyString);
        Log DEBUG "delete certificate 01";
        Exec (delstore_cmd "Root" "01") (Exited 0 EmptyString EmptyString);
        Log DEBUG "delete certificate 02";
        Exec (delstore_cmd "Root" "02") (Exited 0 EmptyString EmptyString)].
Proof.
  cbv zeta. split; [reflexivity|].
  refine (proj1 (proj1 (proj2 (proj2
    (remove_cert_fromstore_deletes
       (with_processes (exec_certutil (fun _ => two_serials) (fun _ => 0))
          quiet_env)
       "1a2b" "Root" two_serials EmptyString
       (fun _ snum => Exited 0 EmptyString EmptyString) empty_world
       eq_refl (exec_certutil_delstore _ _ _)))) _ _)).
  - discriminate.
  - intros s _. reflexivity.
Defined.

(** C10, as the claim has it, fails when a delete fails: with serial
    numbers 01 and 02 listed and the delete of 01 exiting with 1, the
    error of that delete leaves the function and 02 is never deleted. *)
Lemma remove_cert_fromstore_deletes_counterexample :
  let E := with_processes (exec_certutil (fun _ => two_serials) fail_first)
             quiet_env in
  let r := remove_cert_fromstore E "1a2b" "Root" empty_world in
  serials_of two_serials = ["01"; "02"] /\
  invocations (w_trace r.2) =
    [store_cmd "Root" "1a2b"; delstore_cmd "Root" "01"] /\
  ~ In (delstore_cmd "Root" "02") (invocations (w_trace r.2)) /\
  r.1 = Raise (CalledProcessError 1 (delstore_cmd "Root" "01") EmptyString).
Proof.
  cbv zeta. split; [reflexivity|]. split; [vm_compute; reflexivity|].
  split; [|vm_compute; reflexivity].
  intros H. vm_compute in H. destruct H as [H|[H|[]]]; discriminate H.
Qed.

(** C4, as amended.  remove_ca handles the Root store first and the CA
    store second, each through remove_cert_fromstore, and the error of the
    first ends it.  With no match in Root the no-match error is raised
    right after the Root query and the CA store is not even queried.  With
    matches in Root they are deleted and the CA store is queried next; no
    match there raises the no-match error as well.  remove_ca completes
    only when both stores list a match (the deletes succeeding). *)
Theorem remove_ca_needs_both (E : environment) (certid : string)
    (listing : string -> string * string)
    (reply : string -> string -> proc_result) (w : world) :
  store_replies E certid listing ->
  delstore_replies E reply ->
  (forall store s, exit_ok (reply store s) = true) ->
  let root := serials_of (listing "Root").1 in
  let ca := serials_of (listing "CA").1 in
  let query := fun store =>
    Exec (store_cmd store certid)
         (Exited 0 (listing store).1 (listing store).2) in
  (root = [] ->
   runs (remove_ca E certid) w (Raise (no_match certid)) [query "Root"]) /\
  (root <> [] -> ca = [] ->
   runs (remove_ca E certid) w (Raise (no_match certid))
        ((query "Root" :: delete_attempts reply "Root" root) ++
         [query "CA"])) /\
  (root <> [] -> ca <> [] ->
   runs (remove_ca E certid) w (Ret tt)
        ((query "Root" :: delete_attempts reply "Root" root) ++
         query "CA" :: delete_attempts reply "CA" ca)).
Proof.
  intros Hq Hreply Hok root ca query. unfold remove_ca.
  split; [|split].
  - intros Hroot. apply runs_bind_raise.
    apply remove_cert_fromstore_none; [apply Hq | exact Hroot].
  - intros Hroot Hca. eapply runs_bind.
    + apply remove_cert_fromstore_some; [apply Hq | exact Hroot |].
      intros w1. apply delete_serials_all; [exact Hreply|].
      intros s _. apply Hok.
    + intros w1 _.
      apply remove_cert_fromstore_none; [apply Hq | exact Hca].
  - intros Hroot Hca. eapply runs_bind.
    + apply remove_cert_fromstore_some; [apply Hq | exact Hroot |].
      intros w1. apply delete_serials_all; [exact Hreply|].
      intros s _. apply Hok.
    + intros w1 _.
      apply remove_cert_fromstore_some; [apply Hq | exact Hca |].
      intros w2. apply delete_serials_all; [exact Hreply|].
      intros s _. apply Hok.
Qed.

Lemma exec_certutil_store listing del_code E certid :
  store_replies (with_processes (exec_certutil listing del_code) E) certid
    (fun store => (listing store, EmptyString)).
Proof. intros h store. reflexivity. Qed.

Lemma remove_ca_needs_both_witness :
  let E := with_processes (exec_certutil only_in_ca (fun _ => 0)) quiet_env in
  serials_of (only_in_ca "Root") = [] /\
  runs (remove_ca E "1a2b") empty_world (Raise (no_match "1a2b"))
       [Exec (store_cmd "Root" "1a2b") (Exited 0 EmptyString EmptyString)].
Proof.
  cbv zeta. split; [reflexivity|].
  refine (proj1 (remove_ca_needs_both
    (with_processes (exec_certutil only_in_ca (fun _ => 0)) quiet_env)
    "1a2b" (fun store => (only_in_ca store, EmptyString))
    (fun _ snum => Exited 0 EmptyString EmptyString) empty_world
    (exec_certutil_store _ _ _ _) (exec_certutil_delstore _ _ _)
    (fun _ _ => eq_refl)) _).
  reflexivity.
Defined.

(** C4, as the claim has it, fails when only the CA store lists the
    certificate: remove_ca raises the no-match error after the Root query,
    and the two matches of the CA store are neither looked up nor
    deleted. *)
Lemma remove_ca_needs_both_counterexample :
  let E := with_processes (exec_certutil only_in_ca (fun _ => 0)) quiet_env in
  let r := remove_ca E "1a2b" empty_world in
  serials_of (only_in_ca "Root") = [] /\
  serials_of (only_in_ca "CA") = ["01"; "02"] /\
  r.1 = Raise (no_match "1a2b") /\
  invocations (w_trace r.2) = [store_cmd "Root" "1a2b"].
Proof.
  cbv zeta. repeat split; vm_compute; reflexivity.
Qed.

(** ** make_ca *)

(** The sub-day part of [valid_hours] and the time of day never reach the
    end date: only whole days of [valid_hours] are added to today. *)
Lemma make_ca_dates_whole_days o s s' h w :
  make_ca_dates (mkDatetime o s) h w =
  make_ca_dates (mkDatetime o s') (24 * (h / 24)) w.
Proof.
  unfold make_ca_dates, timedelta_hours_days. simpl dt_ordinal.
  replace (24 * (h / 24) / 24) with (h / 24); [reflexivity|].
  rewrite Z.mul_comm, Z.div_mul; lia.
Qed.

(** C7.  At 13:00 on 2017-01-01 with [valid_hours] = 12 the time twelve
    hours later falls on 2017-01-02, which is the end date the claim and
    the docstring of make_ca call for, and the begin date is the day
    before today, as claimed.  The code adds the hours to [now.date()],
    where only whole days count, so the end date it computes and passes to
    makecert after -e is today, 01/01/2017. *)
Theorem make_ca_end_date_drops_hours :
  let now := mkDatetime 736330 46800 in
  ord2ymd (dt_ordinal now) = (2017, 1, 1) /\
  (make_ca_dates now 12 empty_world).1 = Ret ("12/31/2016", "01/01/2017") /\
  strftime_mdY (hours_later_ordinal now 12) = Ret "01/02/2017" /\
  nth 1 (w_trace (make_ca quiet_env "My CA" "secret" "ca.pvk" "ca.cer" 12
                    sdk_world).2) (Sleep 0) =
    ShellRun (make_ca_cmd "C:\SDK\Bin\makecert.exe" "12/31/2016" "01/01/2017"
                "My CA" "ca.pvk" "ca.cer") 1 false.
Proof. cbv zeta. repeat split; vm_compute; reflexivity. Qed.

Lemma invocations_schedule evs : schedule evs = evs -> invocations evs = [].
Proof.
  induction evs as [|e evs IH]; intros H; [reflexivity|].
  assert (He : is_shell_event e = true).
  { destruct (is_shell_event e) eqn:Hs; [reflexivity|].
    exfalso. unfold schedule in H. simpl in H. rewrite Hs in H.
    assert (Hl : length (List.filter is_shell_event evs) = length (e :: evs))
      by now rewrite H.
    pose proof (List.filter_length_le is_shell_event evs). simpl in Hl. lia. }
  unfold schedule in H. simpl in H. rewrite He in H. inversion H as [H'].
  rewrite H'. destruct e; try discriminate He; simpl; apply IH; exact H'.
Qed.

(** Whatever the window manager does, the authority responder starts no
    process other than the one it launches through the shell. *)
Lemma run_makecert_authority_no_exec E cmd pw w :
  exists r evs,
    runs (run_makecert_authority E cmd pw) w r evs /\ invocations evs = [].
Proof.
  set (h := w_trace w ++ launch_events "run_makecert_authority" cmd).
  set (polls := poll_events (env_activate E) h 20).
  set (found := env_activate E (h ++ polls) popup_title).
  exists (if found then Ret tt else Raise popup_timeout).
  eexists. split.
  - apply authority_around_wait. intros w1 Hw1.
    pose proof (wait_for_popup_general E w1) as H. cbv zeta in H.
    fold h in Hw1. rewrite Hw1 in H. exact H.
  - rewrite !invocations_app. fold h polls found.
    rewrite (invocations_schedule polls) by apply schedule_poll_events.
    destruct found; reflexivity.
Qed.

Lemma make_ca_dates_pure now h w :
  exists r, make_ca_dates now h w = (r, w).
Proof.
  unfold make_ca_dates, bind, lift, ret.
  destruct (date_add_days (dt_ordinal now) (-1)); [|eauto].
  destruct (strftime_mdY a); [|eauto].
  destruct (timedelta_hours_days h); [|eauto].
  destruct (date_add_days (dt_ordinal now) a1); [|eauto].
  destruct (strftime_mdY a2); eauto.
Qed.

Lemma make_ca_run_no_exec E subject pw pvk cer h w :
  exists r1 w1 evs,
    steps (make_ca_run E subject pw pvk cer h) w r1 evs w1 /\
    invocations evs = [].
Proof.
  unfold make_ca_run, get_winsdk_path.
  destruct (env_sdk E) as [sdk|].
  2:{ exists (Raise (RuntimeError
                ("missing windows sdk registry entry: " +:+ WINSDK_ERROR))),
        w, [].
      split; [|reflexivity]. apply steps_bind_raise. apply steps_raise. }
  set (mkcert := os_path_join (collapse_backslashes sdk)
                   ["Bin"; "makecert.exe"]).
  destruct (fs_isfile (w_fs w) mkcert) eqn:Hfile.
  2:{ exists (Raise (AssertionError ("missing '" +:+ mkcert +:+ "'"))), w, [].
      split; [|reflexivity].
      split; [|now rewrite app_nil_r].
      unfold bind, ret, os_path_isfile. fold mkcert. rewrite Hfile.
      reflexivity. }
  destruct (make_ca_dates_pure (env_now E) h w) as [rd Hd].
  destruct rd as [dates|e].
  2:{ exists (Raise e), w, []. split; [|reflexivity].
      split; [|now rewrite app_nil_r].
      unfold bind at 1 2. unfold ret, os_path_isfile. fold mkcert.
      rewrite Hfile. change (negb true) with false. cbv beta iota.
      unfold bind. rewrite Hd. reflexivity. }
  destruct (run_makecert_authority_no_exec E
              (make_ca_cmd mkcert dates.1 dates.2 subject pvk cer) pw w)
    as (r & evs & [w1 [Hrun Htr]] & Hinv).
  exists r, w1, evs. split; [|exact Hinv].
  split; [|exact Htr].
  unfold bind at 1 2. unfold ret, os_path_isfile. fold mkcert.
  rewrite Hfile. change (negb true) with false. cbv beta iota.
  unfold bind at 1. rewrite Hd. exact Hrun.
Qed.

Lemma make_ca_after_run E subject pw pvk cer h w w1 :
  make_ca_run E subject pw pvk cer h w = (Ret tt, w1) ->
  make_ca E subject pw pvk cer h w = make_ca_confirm E pvk cer w1.
Proof. intros H. unfold make_ca, bind. now rewrite H. Qed.

Lemma confirm_created_two what a b w :
  confirm_created what [a; b] w =
  ((if fs_isfile (w_fs w) a
    then if fs_isfile (w_fs w) b then Ret tt
         else Raise (RuntimeError (what +:+ " did not create " +:+ b))
    else Raise (RuntimeError (what +:+ " did not create " +:+ a))), w).
Proof.
  unfold confirm_created, bind, os_path_isfile, ret, raise.
  destruct (fs_isfile (w_fs w) a); cbv [negb]; cbv beta iota; [|reflexivity].
  destruct (fs_isfile (w_fs w) b); reflexivity.
Qed.

(** C6, as amended.  The part of make_ca up to the end of the makecert
    run starts no process of its own and may raise (no SDK in the
    registry, no makecert.exe, a date out of range, the popup timeout):
    that error is the error of make_ca, and nothing is added to the Root
    store.  When the run completes, the two files are looked for in the
    file system as it is then.  If the private-key file is missing, or it
    is there and the certificate file is missing, make_ca raises the error
    naming that file and does nothing more.  If both are there, certutil
    -addstore Root is invoked on the certificate file as the one remaining
    step, and make_ca returns when it exits with 0 and raises its error
    otherwise.  So make_ca never returns normally without both files
    having been there and certutil having added the certificate. *)
Theorem make_ca_outcome (E : environment)
    (subject password pvk_filename cer_filename : string) (valid_hours : Z)
    (w : world) :
  exists r1 w1 evs,
    steps (make_ca_run E subject password pvk_filename cer_filename
             valid_hours) w r1 evs w1 /\
    invocations evs = [] /\
    let make_ca_w :=
      make_ca E subject password pvk_filename cer_filename valid_hours w in
    let add := addstore_cmd cer_filename in
    let res := env_exec E (w_trace w1) add in
    (forall e, r1 = Raise e -> make_ca_w = (Raise e, w1)) /\
    (r1 = Ret tt -> fs_isfile (w_fs w1) pvk_filename = false ->
     make_ca_w = (Raise (missing_file pvk_filename), w1)) /\
    (r1 = Ret tt -> fs_isfile (w_fs w1) pvk_filename = true ->
     fs_isfile (w_fs w1) cer_filename = false ->
     make_ca_w = (Raise (missing_file cer_filename), w1)) /\
    (r1 = Ret tt -> fs_isfile (w_fs w1) pvk_filename = true ->
     fs_isfile (w_fs w1) cer_filename = true ->
     exists w2,
       make_ca_w = ((if exit_ok res then Ret tt
                     else Raise (check_output_error add res)), w2) /\
       w_trace w2 = w_trace w ++ evs ++ [Exec add res]).
Proof.
  destruct (make_ca_run_no_exec E subject password pvk_filename cer_filename
              valid_hours w) as (r1 & w1 & evs & Hsteps & Hinv).
  exists r1, w1, evs. split; [exact Hsteps|]. split; [exact Hinv|].
  destruct Hsteps as [Hrun Htr]. cbv zeta.
  split; [|split; [|split]].
  - intros e ->. unfold make_ca, bind. now rewrite Hrun.
  - intros -> Hpvk. rewrite (make_ca_after_run _ _ _ _ _ _ _ _ Hrun).
    unfold make_ca_confirm. unfold bind at 1.
    rewrite confirm_created_two, Hpvk. reflexivity.
  - intros -> Hpvk Hcer. rewrite (make_ca_after_run _ _ _ _ _ _ _ _ Hrun).
    unfold make_ca_confirm. unfold bind at 1.
    rewrite confirm_created_two, Hpvk, Hcer. reflexivity.
  - intros -> Hpvk Hcer. rewrite (make_ca_after_run _ _ _ _ _ _ _ _ Hrun).
    unfold make_ca_confirm. unfold bind at 1.
    rewrite confirm_created_two, Hpvk, Hcer.
    unfold check_output, bind, run_process, interact, ret, raise.
    cbv beta zeta iota.
    destruct (env_exec E (w_trace w1) (addstore_cmd cer_filename))
      as [code out err|]; simpl exit_ok.
    + destruct (code =? 0)%Z; eexists; (split; [reflexivity|]);
        simpl; now rewrite Htr, <- app_assoc.
    + eexists. split; [reflexivity|]. simpl. now rewrite Htr, <- app_assoc.
Qed.

Lemma make_ca_outcome_witness :
  (make_ca quiet_env "My CA" "secret" "ca.pvk" "ca.cer" 24 sdk_world).1 =
  Raise popup_timeout.
Proof.
  destruct (make_ca_outcome quiet_env "My CA" "secret" "ca.pvk" "ca.cer" 24
              sdk_world) as (r1 & w1 & evs & [Hrun _] & _ & H & _).
  destruct r1 as [[]|e].
  - exfalso. assert (Hf : (make_ca_run quiet_env "My CA" "secret" "ca.pvk"
                             "ca.cer" 24 sdk_world).1 = Ret tt)
      by now rewrite Hrun.
    vm_compute in Hf. discriminate Hf.
  - cbv zeta in H. rewrite (H e eq_refl). simpl.
    assert (Hf : (make_ca_run quiet_env "My CA" "secret" "ca.pvk"
                    "ca.cer" 24 sdk_world).1 = Raise e)
      by now rewrite Hrun.
    vm_compute in Hf. inversion Hf. reflexivity.
Defined.

(** C6, as the claim has it, fails when the popup never shows: neither
    file exists afterwards, nothing is added to the Root store, and the
    error raised is the timeout of the responder, which names no file. *)
Lemma make_ca_outcome_counterexample :
  let r := make_ca quiet_env "My CA" "secret" "ca.pvk" "ca.cer" 24
             sdk_world in
  r.1 = Raise popup_timeout /\
  r.1 <> Raise (missing_file "ca.pvk") /\
  r.1 <> Raise (missing_file "ca.cer") /\
  fs_isfile (w_fs r.2) "ca.pvk" = false /\
  fs_isfile (w_fs r.2) "ca.cer" = false /\
  invocations (w_trace r.2) = [].
Proof.
  cbv zeta. split; [vm_compute; reflexivity|].
  split; [intros H; vm_compute in H; discriminate H|].
  split; [intros H; vm_compute in H; discriminate H|].
  repeat split; vm_compute; reflexivity.
Qed.

(** ** make_pfx *)

Lemma blocked_false locked d (fs : gmap string node) p :
  (forall q, under d q = true -> locked q = false) ->
  blocked locked d fs p = false.
Proof.
  intros Hfree. unfold blocked.
  destruct (existsb _ _) eqn:Hex; [|reflexivity].
  apply existsb_exists in Hex as ([q x] & _ & Hq). simpl in Hq.
  apply andb_true_iff in Hq as [Hq Hl].
  apply andb_true_iff in Hq as [Hd _].
  rewrite (Hfree q Hd) in Hl. discriminate Hl.
Qed.

(** With nothing in the tree locked, the removal leaves nothing of it. *)
Lemma rmtree_removes locked (fs : gmap string node) d p :
  (forall q, under d q = true -> locked q = false) ->
  under d p = true ->
  rmtree_fs locked d fs !! p = None.
Proof.
  intros Hfree Hu. unfold rmtree_fs. apply map_lookup_filter_None. right.
  intros x _ H. simpl in H.
  rewrite Hu, (blocked_false locked d fs p Hfree) in H. discriminate H.
Qed.

(** C8, as amended.  Whatever the environment does and whichever step of
    make_pfx raises, the last effect of make_pfx, once the SDK path is
    known and the scratch directory made, is the removal of that directory
    with errors ignored.  If at no time an entry of the scratch tree is
    locked and the environment puts nothing into the tree while it is
    being removed, then neither the directory nor anything below it
    exists when make_pfx is left.  Without an SDK path make_pfx raises
    before making a scratch directory and leaves the world as it was. *)
Theorem make_pfx_leaves_no_scratch (E : environment)
    (ca_subject password ca_pvk_filename ca_cer_filename pfx_filename : string)
    (w : world) :
  let r := make_pfx E ca_subject password ca_pvk_filename ca_cer_filename
             pfx_filename w in
  let tmpd := env_tmpdir E (w_trace w) in
  (env_sdk E = None -> r.2 = w) /\
  (forall sdk, env_sdk E = Some sdk ->
     last (w_trace r.2) = Some (Rmtree tmpd) /\
     ((forall h q, under tmpd q = true -> env_locked E h q = false) ->
      (forall h (fs : gmap string node) q,
         under tmpd q = true -> fs !! q = None ->
         env_step E (h ++ [Rmtree tmpd]) fs !! q = None) ->
      forall p, under tmpd p = true -> w_fs r.2 !! p = None)).
Proof.
  cbv zeta. unfold make_pfx, get_winsdk_path. split.
  - intros ->. reflexivity.
  - intros sdk ->.
    unfold bind, ret, tempfile_mkdtemp, try_finally, shutil_rmtree.
    cbv beta iota zeta.
    match goal with
    | |- context [make_pfx_body ?e0 ?a ?b ?c ?d ?e ?f ?g ?h ?i ?j ?k ?w0] =>
        destruct (make_pfx_body e0 a b c d e f g h i j k w0) as [rb wb]
    end.
    destruct rb as [[]|e]; cbv beta iota; unfold snd, w_trace, w_fs;
      (split; [apply last_snoc|]);
      intros Hfree Hquiet p Hp; apply Hquiet; [exact Hp| |exact Hp|];
      apply rmtree_removes; auto.
Qed.

Lemma make_pfx_leaves_no_scratch_witness :
  let E := working_env scratch_pvk scratch_cer (fun _ => 0) in
  env_sdk E = Some "C:\SDK" /\
  under "C:\Temp\tmp0" scratch_pvk = true /\
  w_fs (make_pfx E "My CA" "secret" "ca.pvk" "ca.cer" "my.pfx"
          sdk_world).2 !! scratch_pvk = None.
Proof.
  cbv zeta. split; [reflexivity|]. split; [reflexivity|].
  apply (proj2 (proj2 (make_pfx_leaves_no_scratch
                         (working_env scratch_pvk scratch_cer (fun _ => 0))
                         "My CA" "secret" "ca.pvk" "ca.cer" "my.pfx"
                         sdk_world)
                  "C:\SDK" eq_refl)).
  - intros h q _. reflexivity.
  - intros h fs q _ Hq. simpl. unfold makecert_writes.
    rewrite last_snoc. exact Hq.
  - reflexivity.
Defined.

(** C8, as the claim has it, fails when makecert still holds its key file
    open at the end: the removal passes over the file and the directory
    that contains it, no error is raised, make_pfx returns 0, and the
    scratch directory is still there with the private key in it. *)
Lemma make_pfx_leaves_no_scratch_counterexample :
  let r := make_pfx (holding_env scratch_pvk) "My CA" "secret" "ca.pvk"
             "ca.cer" "my.pfx" sdk_world in
  r.1 = Ret 0 /\
  last (w_trace r.2) = Some (Rmtree "C:\Temp\tmp0") /\
  w_fs r.2 !! "C:\Temp\tmp0" = Some Dir /\
  w_fs r.2 !! scratch_pvk = Some File /\
  w_fs r.2 !! scratch_cer = None.
Proof. cbv zeta. repeat split; vm_compute; reflexivity. Qed.

(** The exit paths of make_pfx on concrete machines: the popup never
    shows; makecert writes nothing; the converter fails; the packaging
    tool fails; everything works.  The scratch directory is gone each
    time. *)
Example make_pfx_exit_paths :
  let gone := fun r : outcome Z * world =>
    (w_fs r.2 !! "C:\Temp\tmp0", w_fs r.2 !! scratch_pvk,
     w_fs r.2 !! scratch_cer) = (None, None, None) in
  let run := fun E =>
    make_pfx E "My CA" "secret" "ca.pvk" "ca.cer" "my.pfx" sdk_world in
  let timeout := run quiet_env in
  let nothing_written :=
    run (with_window_manager (popup_after 1) quiet_env) in
  let converter_fails :=
    run (working_env scratch_pvk scratch_cer
           (fails "C:\SDK\Bin\cert2spc.exe")) in
  let packaging_fails :=
    run (working_env scratch_pvk scratch_cer
           (fails "C:\SDK\Bin\pvk2pfx.exe")) in
  let works := run (working_env scratch_pvk scratch_cer (fun _ => 0)) in
  (timeout.1 = Raise popup_timeout /\ gone timeout) /\
  (nothing_written.1 =
     Raise (RuntimeError ("makecert(end) did not create " +:+ scratch_pvk)) /\
   gone nothing_written) /\
  (converter_fails.1 =
     Raise (RuntimeError
              ("error running C:\SDK\Bin\cert2spc.exe " +:+ scratch_cer +:+
               " C:\Temp\tmp0\mycert.spc: out")) /\
   gone converter_fails) /\
  (packaging_fails.1 =
     Raise (RuntimeError "error running C:\SDK\Bin\pvk2pfx.exe: out") /\
   gone packaging_fails) /\
  (works.1 = Ret 0 /\ gone works /\
   invocations (w_trace works.2) =
     [["C:\SDK\Bin\cert2spc.exe"; scratch_cer; "C:\Temp\tmp0\mycert.spc"];
      pvk2pfx_cmd "C:\SDK\Bin\pvk2pfx.exe" scratch_pvk "secret"
        "C:\Temp\tmp0\mycert.spc" "my.pfx"]).
Proof. cbv zeta. repeat split; vm_compute; reflexivity. Qed.

(** make_ca on concrete machines: everything works; makecert writes only
    the private key. *)
Example make_ca_exit_paths :
  let run := fun E =>
    make_ca E "My CA" "secret" "ca.pvk" "ca.cer" 24 sdk_world in
  let works := run (working_env "ca.pvk" "ca.cer" (fun _ => 0)) in
  let no_cer := run (working_env "ca.pvk" "ca.pvk" (fun _ => 0)) in
  let add_fails := run (working_env "ca.pvk" "ca.cer" (fails "certutil.exe")) in
  (works.1 = Ret tt /\
   invocations (w_trace works.2) = [addstore_cmd "ca.cer"] /\
   fs_isfile (w_fs works.2) "ca.pvk" = true /\
   fs_isfile (w_fs works.2) "ca.cer" = true) /\
  (no_cer.1 = Raise (missing_file "ca.cer") /\
   invocations (w_trace no_cer.2) = []) /\
  (add_fails.1 =
     Raise (CalledProcessError 1 (addstore_cmd "ca.cer") "out") /\
   invocations (w_trace add_fails.2) = [addstore_cmd "ca.cer"]).
Proof. cbv zeta. repeat split; vm_compute; reflexivity. Qed.

(** ** Further properties of the module *)

(** *** The registry lookup *)

(** X1.  Without the registry entry of the SDK, get_winsdk_path raises the
    error that tells the user to install it, and make_ca, make_pfx,
    sign_code and is_signed raise that same error before doing anything:
    the world is as it was, no scratch directory is made, nothing is
    launched. *)
Theorem sdk_missing_stops_everything (E : environment) (w : world)
    (subject password pvk cer pfx exe : string) (valid_hours : Z) :
  env_sdk E = None ->
  get_winsdk_path E w = (Raise sdk_missing, w) /\
  make_ca E subject password pvk cer valid_hours w = (Raise sdk_missing, w) /\
  make_pfx E subject password pvk cer pfx w = (Raise sdk_missing, w) /\
  sign_code E exe pfx password w = (Raise sdk_missing, w) /\
  is_signed E exe w = (Raise sdk_missing, w).
Proof.
  intros H.
  assert (Hg : get_winsdk_path E w = (Raise sdk_missing, w))
    by (unfold get_winsdk_path; now rewrite H).
  split; [exact Hg|].
  split; [unfold make_ca, make_ca_run, bind; now rewrite Hg|].
  split; [unfold make_pfx, bind; now rewrite Hg|].
  split; [unfold sign_code, bind; now rewrite Hg|].
  unfold is_signed, bind. now rewrite Hg.
Qed.

Lemma sdk_missing_stops_everything_witness :
  let E := mkEnv None (fun _ _ => true)
             (fun _ _ => Exited 0 EmptyString EmptyString)
             (fun _ fs => fs) (fun _ _ => false) (fun _ => "C:\Temp\tmp0")
             (mkDatetime 736330 46800) in
  env_sdk E = None /\
  make_pfx E "My CA" "secret" "ca.pvk" "ca.cer" "my.pfx" sdk_world =
  (Raise sdk_missing, sdk_world).
Proof.
  cbv zeta. split; [reflexivity|].
  refine (proj1 (proj2 (proj2 (sdk_missing_stops_everything
    (mkEnv None (fun _ _ => true)
       (fun _ _ => Exited 0 EmptyString EmptyString)
       (fun _ fs => fs) (fun _ _ => false) (fun _ => "C:\Temp\tmp0")
       (mkDatetime 736330 46800))
    sdk_world "My CA" "secret" "ca.pvk" "ca.cer" "my.pfx" "app.exe" 24 _)))).
  reflexivity.
Defined.

(** Induction on strings two characters at a time. *)
Lemma string_pair_ind (P : string -> Prop) :
  P EmptyString ->
  (forall a, P (String a EmptyString)) ->
  (forall a b rest, P rest -> P (String b rest) ->
                    P (String a (String b rest))) ->
  forall s, P s.
Proof.
  intros H0 H1 H2 s.
  assert (H : P s /\ forall a, P (String a s)).
  { induction s as [|b s [IH1 IH2]].
    - split; [exact H0 | exact H1].
    - split; [apply IH2|]. intros a. apply H2; [exact IH1 | apply IH2]. }
  exact (proj1 H).
Qed.

Lemma collapse_backslashes_length s :
  (String.length (collapse_backslashes s) <= String.length s)%nat.
Proof.
  induction s as [|a|a b rest IH1 IH2] using string_pair_ind;
    [simpl; lia | simpl; lia|].
  change (collapse_backslashes (String a (String b rest)))
    with (if Ascii.eqb a backslash && Ascii.eqb b backslash
          then String backslash (collapse_backslashes rest)
          else String a (collapse_backslashes (String b rest))).
  destruct (Ascii.eqb a backslash && Ascii.eqb b backslash).
  - simpl String.length. lia.
  - simpl String.length in *. lia.
Qed.

Lemma collapse_backslashes_shrinks s :
  has_double_backslash s = true ->
  (String.length (collapse_backslashes s) < String.length s)%nat.
Proof.
  induction s as [|a|a b rest IH1 IH2] using string_pair_ind;
    [discriminate | discriminate|].
  change (has_double_backslash (String a (String b rest)))
    with ((Ascii.eqb a backslash && Ascii.eqb b backslash) ||
          has_double_backslash (String b rest)).
  change (collapse_backslashes (String a (String b rest)))
    with (if Ascii.eqb a backslash && Ascii.eqb b backslash
          then String backslash (collapse_backslashes rest)
          else String a (collapse_backslashes (String b rest))).
  intros H.
  destruct (Ascii.eqb a backslash && Ascii.eqb b backslash).
  - pose proof (collapse_backslashes_length rest). simpl String.length. lia.
  - simpl in H. specialize (IH2 H). simpl String.length in *. lia.
Qed.

Lemma collapse_backslashes_keeps s :
  has_double_backslash s = false -> collapse_backslashes s = s.
Proof.
  induction s as [|a|a b rest IH1 IH2] using string_pair_ind;
    [reflexivity | reflexivity|].
  change (has_double_backslash (String a (String b rest)))
    with ((Ascii.eqb a backslash && Ascii.eqb b backslash) ||
          has_double_backslash (String b rest)).
  change (collapse_backslashes (String a (String b rest)))
    with (if Ascii.eqb a backslash && Ascii.eqb b backslash
          then String backslash (collapse_backslashes rest)
          else String a (collapse_backslashes (String b rest))).
  intros H. apply orb_false_iff in H as [Hab Ht].
  rewrite Hab. now rewrite (IH2 Ht).
Qed.

(** X2.  The clean-up of the registry value never makes the path longer,
    and it returns the path unchanged exactly when the path has no two
    backslashes next to each other. *)
Theorem collapse_backslashes_fixpoint (s : string) :
  (String.length (collapse_backslashes s) <= String.length s)%nat /\
  (collapse_backslashes s = s <-> has_double_backslash s = false).
Proof.
  split; [apply collapse_backslashes_length|]. split.
  - intros Heq. destruct (has_double_backslash s) eqn:Hd; [|reflexivity].
    pose proof (collapse_backslashes_shrinks s Hd) as Hlt.
    rewrite Heq in Hlt. lia.
  - apply collapse_backslashes_keeps.
Qed.

(** *** is_signed *)

(** X3.  With the SDK in the registry, is_signed runs signtool verify
    exactly once and turns its exit status into the answer: true for 0,
    false for every other status.  Only when signtool cannot be started
    does it raise, and then the error is OSError. *)
Theorem is_signed_outcome (E : environment) (sdk exe : string) (w : world) :
  env_sdk E = Some sdk ->
  let cmd := verify_cmd (signtool_path sdk) exe in
  let res := env_exec E (w_trace w) cmd in
  runs (is_signed E exe) w
       (match res with
        | Exited code _ _ => Ret (code =? 0)%Z
        | SpawnFailed => Raise OSError
        end)
       [Exec cmd res].
Proof.
  intros Hsdk cmd res.
  exists (mkWorld (w_trace w ++ [Exec cmd res])
                  (env_step E (w_trace w ++ [Exec cmd res]) (w_fs w))).
  split; [|reflexivity].
  unfold is_signed, bind at 1, get_winsdk_path. rewrite Hsdk.
  unfold ret at 1. unfold except_called_process_error.
  unfold bind, check_output, bind, run_process, interact, ret, raise.
  fold (signtool_path sdk). fold (verify_cmd (signtool_path sdk) exe).
  fold cmd. cbv zeta. fold res.
  destruct res as [code out err|]; [|reflexivity].
  destruct (code =? 0)%Z; reflexivity.
Qed.

Lemma is_signed_outcome_witness :
  env_sdk quiet_env = Some "C:\SDK" /\
  runs (is_signed (with_processes (exec_by_program (fun _ => 1)) quiet_env)
          "app.exe") empty_world (Ret false)
       [Exec (verify_cmd (signtool_path "C:\SDK") "app.exe")
             (Exited 1 "out" "err")].
Proof.
  split; [reflexivity|].
  apply (is_signed_outcome
           (with_processes (exec_by_program (fun _ => 1)) quiet_env)
           "C:\SDK" "app.exe" empty_world).
  reflexivity.
Defined.

(** *** sign_code under any environment *)

Section SignLoopAny.

Variable E : environment.
Variables signtool exe pfx_file password : string.

Let cmd := fun turl => sign_cmd signtool pfx_file password turl exe.

Lemma sign_loop_any urls w :
  exists r evs k,
    runs (sign_loop E signtool exe pfx_file password urls) w r evs /\
    (k <= length urls)%nat /\
    invocations evs = map cmd (take k urls) /\
    (r = Ret tt \/ r = Raise OSError \/
     (r = Raise (retries_exhausted exe) /\ k = length urls)).
Proof.
  revert w. induction urls as [|turl rest IH]; intros w.
  - exists (Raise (retries_exhausted exe)), [], 0%nat.
    split; [eexists; apply steps_raise|].
    split; [simpl; lia|]. split; [reflexivity|]. right. right. now split.
  - simpl sign_loop. unfold popen_communicate.
    destruct (env_exec E (w_trace w) (cmd turl)) as [code out err|] eqn:Hres.
    + destruct (code =? 2)%Z eqn:H2.
      * set (w1 := mkWorld
                     ((w_trace w ++ [Exec (cmd turl) (Exited code out err)]) ++
                      [Log DEBUG ("failed to sign w/ timestamp url " +:+ turl)])
                     (env_step E
                        (w_trace w ++ [Exec (cmd turl) (Exited code out err)])
                        (w_fs w))).
        destruct (IH w1) as (r & evs & k & [w2 [Hrun Htr]] & Hk & Hinv & Hr).
        exists r, ([Exec (cmd turl) (Exited code out err);
                    Log DEBUG ("failed to sign w/ timestamp url " +:+ turl)]
                   ++ evs), (S k).
        split; [|split; [|split]].
        -- exists w2. split.
           ++ unfold bind, run_process, interact, ret, log, emit.
              cbv beta zeta iota. fold (cmd turl). rewrite Hres.
              cbv beta iota. rewrite H2. exact Hrun.
           ++ rewrite Htr. unfold w1. simpl w_trace.
              now rewrite <- !app_assoc.
        -- simpl. lia.
        -- rewrite invocations_app, Hinv. reflexivity.
        -- destruct Hr as [Hr|[Hr|[Hr Hl]]]; auto.
           right. right. split; [exact Hr | simpl; lia].
      * destruct (code =? 0)%Z eqn:H0.
        -- exists (Ret tt),
             [Exec (cmd turl) (Exited code out err); Log DEBUG out], 1%nat.
           split; [|split; [|split]];
             [|simpl; lia | reflexivity | now left].
           eexists. split.
           ++ unfold bind, run_process, interact, ret, log, emit.
              cbv beta zeta iota. fold (cmd turl). rewrite Hres.
              cbv beta iota. rewrite H2, H0. reflexivity.
           ++ simpl. now rewrite <- !app_assoc.
        -- exists (Ret tt),
             [Exec (cmd turl) (Exited code out err); Log INFO out;
              Log ERROR err; Log DEBUG out], 1%nat.
           split; [|split; [|split]];
             [|simpl; lia | reflexivity | now left].
           eexists. split.
           ++ unfold bind, run_process, interact, ret, log, emit.
              cbv beta zeta iota. fold (cmd turl). rewrite Hres.
              cbv beta iota. rewrite H2, H0. reflexivity.
           ++ simpl. now rewrite <- !app_assoc.
    + exists (Raise OSError), [Exec (cmd turl) SpawnFailed], 1%nat.
      split; [|split; [|split]].
      * eexists. split.
        -- unfold bind, run_process, interact, ret, raise.
           cbv beta zeta iota. fold (cmd turl). rewrite Hres. reflexivity.
        -- reflexivity.
      * simpl. lia.
      * reflexivity.
      * right. now left.
Qed.

End SignLoopAny.

(** X4.  Whatever signtool does, sign_code with the SDK in the registry
    invokes it on the timestamp endpoints in their fixed order and on
    nothing else, at most once per endpoint and at most four times in all,
    and it ends in one of three ways: it returns, it raises OSError
    (signtool could not be started), or it raises the exhausted-retries
    error, the last only after all four endpoints were tried. *)
Theorem sign_code_any_environment (E : environment)
    (sdk exe pfx_file password : string) (w : world) :
  env_sdk E = Some sdk ->
  exists r evs k,
    runs (sign_code E exe pfx_file password) w r evs /\
    (k <= 4)%nat /\
    invocations evs =
      map (fun turl => sign_cmd (signtool_path sdk) pfx_file password turl exe)
          (take k timestamp_urls) /\
    (r = Ret tt \/ r = Raise OSError \/
     (r = Raise (retries_exhausted exe) /\ k = 4%nat)).
Proof.
  intros Hsdk.
  destruct (sign_loop_any E (signtool_path sdk) exe pfx_file password
              timestamp_urls w) as (r & evs & k & Hrun & Hk & Hinv & Hr).
  exists r, evs, k. split; [|split; [|split]].
  - eapply runs_ext; [apply (sign_code_as_loop _ _ _ _ _ _ Hsdk) | exact Hrun].
  - exact Hk.
  - exact Hinv.
  - exact Hr.
Qed.

Lemma sign_code_any_environment_witness :
  env_sdk quiet_env = Some "C:\SDK" /\
  exists r evs k,
    runs (sign_code quiet_env "app.exe" "my.pfx" "secret") empty_world r evs /\
    (k <= 4)%nat /\
    invocations evs =
      map (fun turl => sign_cmd (signtool_path "C:\SDK") "my.pfx" "secret"
                         turl "app.exe")
          (take k timestamp_urls) /\
    (r = Ret tt \/ r = Raise OSError \/
     (r = Raise (retries_exhausted "app.exe") /\ k = 4%nat)).
Proof.
  split; [reflexivity|].
  apply (sign_code_any_environment quiet_env "C:\SDK" "app.exe" "my.pfx"
           "secret" empty_world).
  reflexivity.
Defined.

(** *** The responders under any window manager *)

Lemma keystrokes_app a b : keystrokes (a ++ b) = keystrokes a ++ keystrokes b.
Proof. apply List.filter_app. Qed.

Lemma activations_app a b :
  activations (a ++ b) = (activations a + activations b)%nat.
Proof. unfold activations. now rewrite List.filter_app, length_app. Qed.

Lemma total_sleep_app a b :
  total_sleep (a ++ b) = total_sleep a + total_sleep b.
Proof.
  induction a as [|e a IH]; [reflexivity|].
  destruct e; simpl; rewrite ?IH; lia.
Qed.

Lemma poll_events_bounds wm n h :
  keystrokes (poll_events wm h n) = [] /\
  (activations (poll_events wm h n) <= n)%nat /\
  0 <= total_sleep (poll_events wm h n) <= 500 * Z.of_nat n.
Proof.
  revert h. induction n as [|n IH]; intros h.
  - change (poll_events wm h 0) with (@nil event).
    change (total_sleep []) with 0. change (activations []) with 0%nat.
    repeat split; lia.
  - change (poll_events wm h (S n))
      with (if wm h popup_title then [hit]
            else miss ++ poll_events wm (h ++ miss) n).
    destruct (wm h popup_title).
    + change (total_sleep [hit]) with 0.
      change (activations [hit]) with 1%nat.
      repeat split; lia.
    + destruct (IH (h ++ miss)) as (Hk & Ha & Hs).
      rewrite keystrokes_app, activations_app, total_sleep_app, Hk.
      change (keystrokes miss) with (@nil event).
      change (activations miss) with 1%nat.
      change (total_sleep miss) with 500.
      repeat split; lia.
Qed.

Section RespondersAny.

Variable E : environment.

Lemma responder_wait_any (h : list event) :
  let polls := poll_events (env_activate E) h 20 in
  let found := env_activate E (h ++ polls) popup_title in
  let wait := polls ++ [AppActivate popup_title found] in
  keystrokes wait = [] /\ (activations wait <= 21)%nat /\
  0 <= total_sleep wait <= 10000.
Proof.
  intros polls found wait. unfold wait.
  destruct (poll_events_bounds (env_activate E) 20 h) as (Hk & Ha & Hs).
  fold polls in Hk, Ha, Hs.
  rewrite keystrokes_app, activations_app, total_sleep_app, Hk.
  change (total_sleep [AppActivate popup_title found]) with 0.
  change (activations [AppActivate popup_title found]) with 1%nat.
  change (Z.of_nat 20) with 20 in Hs.
  repeat split; [lia..].
Qed.

End RespondersAny.

(** X5.  Whatever the window manager answers, each responder either times
    out without having sent a single keystroke, or sends its complete
    sequence of keystrokes in order: those of the first dialog followed by
    those of the second (and, for the end-entity flow, of the third).  It
    never stops in the middle of a dialog.  Either way it makes at most 21
    activation queries and sleeps at most 12.4 s in the authority flow and
    13.1 s in the end-entity flow. *)
Theorem responders_all_or_nothing (E : environment) (cmd password : string)
    (w : world) :
  (exists (found : bool) (evs : list event),
     runs (run_makecert_authority E cmd password) w
          (if found then Ret tt else Raise popup_timeout) evs /\
     keystrokes evs =
       (if found
        then create_password_keys password ++ enter_password_keys password
        else []) /\
     (activations evs <= 21)%nat /\
     0 <= total_sleep evs <= 12400) /\
  (exists (found : bool) (evs : list event),
     runs (run_makecert_enduser E cmd password) w
          (if found then Ret tt else Raise popup_timeout) evs /\
     keystrokes evs =
       (if found
        then create_password_keys password ++ enter_password_keys password ++
             enter_password_keys password
        else []) /\
     (activations evs <= 21)%nat /\
     0 <= total_sleep evs <= 13100).
Proof.
  split.
  - set (h := w_trace w ++ launch_events "run_makecert_authority" cmd).
    set (polls := poll_events (env_activate E) h 20).
    set (found := env_activate E (h ++ polls) popup_title).
    destruct (responder_wait_any E h) as (Hk & Ha & Hs).
    fold polls found in Hk, Ha, Hs.
    exists found. eexists. split.
    + apply authority_around_wait. intros w1 Hw1.
      pose proof (wait_for_popup_general E w1) as H. cbv zeta in H.
      fold h in Hw1. rewrite Hw1 in H. exact H.
    + fold h polls found.
      rewrite 2!keystrokes_app, 2!activations_app, 2!total_sleep_app, Hk.
      set (aw := activations (polls ++ [AppActivate popup_title found])) in *.
      set (sw := total_sleep (polls ++ [AppActivate popup_title found])) in *.
      clearbody aw sw.
      destruct found; unfold activations; simpl; (split; [reflexivity|]);
        split; lia.
  - set (h := w_trace w ++ launch_events "run_makecert_enduser" cmd).
    set (polls := poll_events (env_activate E) h 20).
    set (found := env_activate E (h ++ polls) popup_title).
    destruct (responder_wait_any E h) as (Hk & Ha & Hs).
    fold polls found in Hk, Ha, Hs.
    exists found. eexists. split.
    + apply enduser_around_wait. intros w1 Hw1.
      pose proof (wait_for_popup_general E w1) as H. cbv zeta in H.
      fold h in Hw1. rewrite Hw1 in H. exact H.
    + fold h polls found.
      rewrite 2!keystrokes_app, 2!activations_app, 2!total_sleep_app, Hk.
      set (aw := activations (polls ++ [AppActivate popup_title found])) in *.
      set (sw := total_sleep (polls ++ [AppActivate popup_title found])) in *.
      clearbody aw sw.
      destruct found; unfold activations; simpl; (split; [reflexivity|]);
        split; lia.
Qed.

(** *** The listing parser *)

Lemma strip_prefix_complete p t : strip_prefix p (p +:+ t) = Some t.
Proof.
  induction p as [|a p IH]; [reflexivity|].
  rewrite append_cons. simpl. now rewrite Ascii.eqb_refl.
Qed.

Lemma span_hex_stop g rest :
  all_hex g = true -> at_dollar rest = true ->
  span_hex (g +:+ rest) = (g, rest).
Proof.
  unfold all_hex. induction g as [|c g IH]; intros Hg Hr.
  - rewrite append_nil. destruct rest as [|c rest]; [reflexivity|].
    simpl in Hr. destruct rest; [|discriminate].
    apply Ascii.eqb_eq in Hr. subst c. reflexivity.
  - simpl in Hg. apply andb_true_iff in Hg as [Hc Hg].
    rewrite append_cons. simpl. rewrite Hc, (IH Hg Hr). reflexivity.
Qed.

Lemma at_dollar_cases rest :
  at_dollar rest = true ->
  rest = EmptyString \/ rest = String newline EmptyString.
Proof.
  destruct rest as [|c rest]; [now left|]. simpl.
  destruct rest; [|discriminate]. intros H. apply Ascii.eqb_eq in H.
  subst. now right.
Qed.

(** X6.  The lines the pattern accepts, exactly: a line yields the serial
    number g if and only if g is a non-empty run of the characters 0-9 and
    a-f and the line is "Serial Number: " followed by g, or by g and one
    final newline.  Nothing may precede the prefix or follow the digits,
    and upper-case digits are not accepted. *)
Theorem match_serial_exact (line g : string) :
  match_serial line = Some g <->
  g <> EmptyString /\ all_hex g = true /\
  (line = serial_prefix +:+ g \/
   line = serial_prefix +:+ g +:+ String newline EmptyString).
Proof.
  unfold match_serial. split.
  - destruct (strip_prefix serial_prefix line) as [t|] eqn:Hp; [|discriminate].
    destruct (span_hex t) as [g' rest] eqn:Hs.
    pose proof (span_hex_app _ _ _ Hs) as Happ.
    pose proof (span_hex_class _ _ _ Hs) as Hcl.
    apply strip_prefix_app in Hp.
    destruct g' as [|c g']; [discriminate|].
    destruct (at_dollar rest) eqn:Hd; [|discriminate].
    intros H. inversion H; subst g.
    split; [discriminate|]. split; [exact Hcl|].
    destruct (at_dollar_cases _ Hd) as [->| ->].
    + left. now rewrite Hp, Happ, string_app_nil_r.
    + right. now rewrite Hp, Happ.
  - intros (Hne & Hall & [->| ->]).
    + rewrite strip_prefix_complete.
      rewrite <- (string_app_nil_r g) at 1.
      rewrite (span_hex_stop g EmptyString Hall eq_refl).
      destruct g; [contradiction | reflexivity].
    + rewrite strip_prefix_complete.
      rewrite (span_hex_stop g (String newline EmptyString) Hall eq_refl).
      destruct g; [contradiction|]. reflexivity.
Qed.

Lemma match_serial_exact_witness :
  match_serial "Serial Number: 12ab" = Some "12ab" /\
  match_serial "Serial Number: 12AB" = None.
Proof.
  split.
  - apply (proj2 (match_serial_exact "Serial Number: 12ab" "12ab")).
    split; [discriminate|]. split; [reflexivity|]. left. reflexivity.
  - destruct (match_serial "Serial Number: 12AB") as [g|] eqn:H;
      [|reflexivity].
    exfalso.
    destruct (proj1 (match_serial_exact "Serial Number: 12AB" g) H)
      as (_ & Hall & _).
    vm_compute in H. discriminate H.
Defined.

Lemma in_omap_match_serial lines s :
  In s (omap match_serial lines) <->
  exists line, In line lines /\ match_serial line = Some s.
Proof.
  rewrite <- list_elem_of_In, list_elem_of_omap.
  split; intros [line [H1 H2]]; exists line; split; auto;
    now apply list_elem_of_In.
Qed.

Lemma match_serial_group line g :
  match_serial line = Some g -> g <> EmptyString /\ all_hex g = true.
Proof.
  unfold match_serial.
  destruct (strip_prefix serial_prefix line) as [t|]; [|discriminate].
  destruct (span_hex t) as [g' rest] eqn:Hs.
  pose proof (span_hex_class _ _ _ Hs) as Hcl.
  destruct g' as [|c g']; [discriminate|].
  destruct (at_dollar rest); [|discriminate].
  intros H. inversion H; subst g. split; [discriminate | exact Hcl].
Qed.

Lemma serials_of_tokens output s :
  In s (serials_of output) ->
  s <> EmptyString /\ all_hex s = true /\
  In (serial_prefix +:+ s) (split_lines output).
Proof.
  unfold serials_of. rewrite collect_serials_omap, app_nil_l.
  intros H. apply in_omap_match_serial in H as (line & Hin & Hm).
  destruct (match_serial_group line s Hm) as [Hne Hall].
  split; [exact Hne|]. split; [exact Hall|].
  rewrite <- (match_serial_line line s
                (split_lines_no_newline output line Hin) Hm).
  exact Hin.
Qed.

Lemma in_take {A} (x : A) k l : In x (take k l) -> In x l.
Proof.
  intros H. rewrite <- (take_drop k l). apply in_or_app. now left.
Qed.

(** X7.  Every serial number read off a listing is a non-empty string of
    the characters 0-9 and a-f that stands on a line of its own after
    "Serial Number: " in the listing.  And in every run of
    remove_cert_fromstore, whatever certutil does, each command run is
    either the listing query or certutil -delstore for such a serial
    number of the listing that the query returned with exit status 0: no
    other text of the listing can reach the delete command. *)
Theorem serials_are_hex_tokens :
  (forall output s,
     In s (serials_of output) ->
     s <> EmptyString /\ all_hex s = true /\
     In (serial_prefix +:+ s) (split_lines output)) /\
  (forall (E : environment) (certid store : string) (w w' : world)
          (r : outcome unit) (evs : list event) (argv : list string),
     steps (remove_cert_fromstore E certid store) w r evs w' ->
     In argv (invocations evs) ->
     argv = store_cmd store certid \/
     exists s listing err,
       argv = delstore_cmd store s /\
       env_exec E (w_trace w) (store_cmd store certid) =
         Exited 0 listing err /\
       s <> EmptyString /\ all_hex s = true /\
       In (serial_prefix +:+ s) (split_lines listing)).
Proof.
  split; [exact serials_of_tokens|].
  intros E certid store w w' r evs argv [Hrun Htr] Hin.
  destruct (remove_cert_fromstore_any E certid store w)
    as (r' & evs' & k & [w'' [Hrun' Htr']] & _ & Hinv & _).
  cbv zeta in Hinv. rewrite Hrun in Hrun'. inversion Hrun'; subst r' w''.
  rewrite Htr in Htr'. apply app_inv_head in Htr'. subst evs'.
  rewrite Hinv in Hin. destruct Hin as [<-|Hin]; [now left|]. right.
  apply in_map_iff in Hin as (s & <- & Hs). apply in_take in Hs.
  destruct (env_exec E (w_trace w) (store_cmd store certid))
    as [code listing err|]; [|destruct Hs].
  unfold listed_serials in Hs.
  destruct (code =? 0)%Z eqn:H0; [|destruct Hs].
  apply Z.eqb_eq in H0. subst code.
  exists s, listing, err. split; [reflexivity|]. split; [reflexivity|].
  now apply serials_of_tokens.
Qed.

Lemma serials_are_hex_tokens_witness :
  let E := with_processes (exec_certutil (fun _ => two_serials) (fun _ => 0))
             quiet_env in
  let run := remove_cert_fromstore E "1a2b" "Root" empty_world in
  In (delstore_cmd "Root" "02") (invocations (w_trace run.2)) /\
  (delstore_cmd "Root" "02" = store_cmd "Root" "1a2b" \/
   exists s listing err,
     delstore_cmd "Root" "02" = delstore_cmd "Root" s /\
     env_exec E (w_trace empty_world) (store_cmd "Root" "1a2b") =
       Exited 0 listing err /\
     s <> EmptyString /\ all_hex s = true /\
     In (serial_prefix +:+ s) (split_lines listing)).
Proof.
  cbv zeta.
  assert (Hin : In (delstore_cmd "Root" "02")
                   (invocations
                      (w_trace
                         (remove_cert_fromstore
                            (with_processes
                               (exec_certutil (fun _ => two_serials)
                                  (fun _ => 0)) quiet_env)
                            "1a2b" "Root" empty_world).2)))
    by (vm_compute; right; right; left; reflexivity).
  split; [exact Hin|].
  refine (proj2 serials_are_hex_tokens
            (with_processes (exec_certutil (fun _ => two_serials) (fun _ => 0))
               quiet_env)
            "1a2b" "Root" empty_world _ _ _ _ (conj eq_refl _) Hin).
  reflexivity.
Defined.

Lemma split_lines_nonempty s : split_lines s <> [].
Proof.
  destruct s as [|c s]; [discriminate|]. simpl.
  destruct (Ascii.eqb c newline); [discriminate|].
  destruct (split_lines s); discriminate.
Qed.

(** X8.  Splitting a listing into lines loses nothing: there is one line
    more than there are newlines, no line contains a newline, and joining
    the lines with newlines gives the listing back. *)
Theorem split_lines_join (s : string) :
  join_lines (split_lines s) = s /\
  length (split_lines s) = S (count_newlines s) /\
  (forall line, In line (split_lines s) -> no_newline line).
Proof.
  split; [|split].
  - induction s as [|c s IH]; [reflexivity|].
    simpl split_lines. destruct (Ascii.eqb c newline) eqn:Hc.
    + apply Ascii.eqb_eq in Hc. subst c.
      pose proof (split_lines_nonempty s) as Hne.
      destruct (split_lines s) as [|hd tl]; [contradiction|].
      change (join_lines (EmptyString :: hd :: tl))
        with (EmptyString +:+ String newline (join_lines (hd :: tl))).
      now rewrite IH.
    + pose proof (split_lines_nonempty s) as Hne.
      destruct (split_lines s) as [|hd tl]; [contradiction|].
      destruct tl as [|hd' tl].
      * simpl in *. now rewrite IH.
      * change (join_lines (String c hd :: hd' :: tl))
          with (String c hd +:+ String newline (join_lines (hd' :: tl))).
        change (join_lines (hd :: hd' :: tl))
          with (hd +:+ String newline (join_lines (hd' :: tl))) in IH.
        rewrite append_cons. now rewrite IH.
  - induction s as [|c s IH]; [reflexivity|].
    simpl. destruct (Ascii.eqb c newline).
    + simpl. now rewrite IH.
    + pose proof (split_lines_nonempty s) as Hne.
      destruct (split_lines s) as [|hd tl]; [contradiction|].
      simpl in *. exact IH.
  - intros line. apply split_lines_no_newline.
Qed.

Lemma split_lines_app a b :
  split_lines (a +:+ String newline b) = split_lines a ++ split_lines b.
Proof.
  induction a as [|c a IH].
  - reflexivity.
  - rewrite append_cons. simpl. rewrite IH.
    destruct (Ascii.eqb c newline); [reflexivity|].
    pose proof (split_lines_nonempty a) as Hne.
    destruct (split_lines a) as [|hd tl]; [contradiction | reflexivity].
Qed.

(** X9.  Listings compose: the serial numbers of one listing followed, on
    a new line, by another are those of the first followed by those of the
    second, so no serial number is lost, invented or reordered where two
    pieces of output meet. *)
Theorem serials_of_concat (a b : string) :
  serials_of (a +:+ String newline b) = serials_of a ++ serials_of b.
Proof.
  unfold serials_of.
  rewrite !collect_serials_omap, !app_nil_l, split_lines_app.
  apply omap_app.
Qed.

Lemma split_lines_join_witness :
  In "Serial Number: 01" (split_lines two_serials) /\
  no_newline "Serial Number: 01".
Proof.
  assert (H : In "Serial Number: 01" (split_lines two_serials))
    by (left; reflexivity).
  split; [exact H|].
  exact (proj2 (proj2 (split_lines_join two_serials)) _ H).
Defined.

Lemma collapse_backslashes_fixpoint_witness :
  has_double_backslash "C:\SDK\Bin" = false /\
  collapse_backslashes "C:\SDK\Bin" = "C:\SDK\Bin".
Proof.
  split; [reflexivity|].
  apply (proj2 (proj2 (collapse_backslashes_fixpoint "C:\SDK\Bin"))).
  reflexivity.
Defined.

(** *** The store adapter under any environment *)

(** X10.  Whatever certutil does, remove_cert_fromstore starts with the
    one listing query.  If the listing fails, its error is raised and no
    delete is invoked.  Otherwise the deletes invoked are, in order, those
    for the first k serial numbers of the listing, for some k: all of them
    if the function returns, and if it raises after at least one delete,
    the error is that of delete number k, which did not exit cleanly.  No
    command other than these is ever run, and no serial number is deleted
    twice unless the listing shows it twice. *)
Theorem remove_cert_fromstore_any_environment (E : environment)
    (certid store : string) (w : world) :
  let query := store_cmd store certid in
  let res := env_exec E (w_trace w) query in
  let snums := listed_serials res in
  exists r evs k,
    runs (remove_cert_fromstore E certid store) w r evs /\
    (k <= length snums)%nat /\
    invocations evs = query :: map (delstore_cmd store) (take k snums) /\
    (exit_ok res = false ->
     r = Raise (check_output_error query res) /\ evs = [Exec query res]) /\
    (r = Ret tt -> snums <> [] /\ k = length snums) /\
    (forall e, r = Raise e -> (1 <= k)%nat ->
       exists s dres, snums !! (k - 1)%nat = Some s /\ exit_ok dres = false /\
                      e = check_output_error (delstore_cmd store s) dres).
Proof.
  destruct (remove_cert_fromstore_any E certid store w)
    as (r & evs & k & Hrun & Hk & Hinv & Hfail & Hret & Hraise & _).
  exists r, evs, k.
  split; [exact Hrun|]. split; [exact Hk|]. split; [exact Hinv|].
  split; [exact Hfail|]. split; [exact Hret | exact Hraise].
Qed.

(** *** make_pfx: what it returns and raises *)

Lemma bind_plain {A B} (m : M A) (k : A -> M B) w :
  plain_outcome (m w).1 -> (forall a w1, plain_outcome (k a w1).1) ->
  plain_outcome (bind m k w).1.
Proof.
  intros Hm Hk. unfold bind. destruct (m w) as [[a|e] w1]; simpl in *.
  - apply Hk.
  - exact Hm.
Qed.

Lemma run_makecert_enduser_result E cmd pw w :
  (run_makecert_enduser E cmd pw w).1 = Ret tt \/
  (run_makecert_enduser E cmd pw w).1 = Raise popup_timeout.
Proof.
  set (h := w_trace w ++ launch_events "run_makecert_enduser" cmd).
  set (polls := poll_events (env_activate E) h 20).
  set (found := env_activate E (h ++ polls) popup_title).
  assert (H : runs (run_makecert_enduser E cmd pw) w
                (if found then Ret tt else Raise popup_timeout)
                (launch_events "run_makecert_enduser" cmd ++
                 (polls ++ [AppActivate popup_title found]) ++
                 after_wait (if found then Ret tt else Raise popup_timeout)
                   (enduser_answers pw))).
  { apply enduser_around_wait. intros w1 Hw1.
    pose proof (wait_for_popup_general E w1) as H. cbv zeta in H.
    fold h in Hw1. rewrite Hw1 in H. exact H. }
  destruct H as [w' [Hrun _]]. rewrite Hrun.
  destruct found; [now left | now right].
Qed.

Lemma confirm_created_plain what fnames w :
  plain_outcome (confirm_created what fnames w).1.
Proof.
  revert w. induction fnames as [|f rest IH]; intros w; [exact I|].
  simpl confirm_created. unfold bind, os_path_isfile.
  destruct (fs_isfile (w_fs w) f); simpl negb; cbv beta iota.
  - apply IH.
  - exact I.
Qed.

Lemma guarded_check_output_plain E argv (msg : string -> string) w :
  plain_outcome
    (except_called_process_error
       (bind (check_output E argv) (fun _ => ret tt))
       (fun output => raise (RuntimeError (msg output))) w).1.
Proof.
  unfold except_called_process_error, bind, check_output, bind, run_process,
    interact, ret, raise.
  cbv beta zeta iota.
  destruct (env_exec E (w_trace w) argv) as [code out err|]; [|exact I].
  destruct (code =? 0)%Z; exact I.
Qed.

Lemma make_pfx_body_plain E mkcert cert2spc pvk2pfx pvk cer spc ca_subject
    password ca_pvk ca_cer pfx w :
  plain_outcome
    (make_pfx_body E mkcert cert2spc pvk2pfx pvk cer spc ca_subject password
       ca_pvk ca_cer pfx w).1.
Proof.
  unfold make_pfx_body. apply bind_plain.
  - destruct (run_makecert_enduser_result E
                (make_pfx_cmd mkcert ca_subject ca_cer ca_pvk pvk cer)
                password w) as [H|H]; rewrite H; exact I.
  - intros _ w1. apply bind_plain; [apply confirm_created_plain|].
    intros _ w2. apply bind_plain.
    + apply (guarded_check_output_plain E [cert2spc; cer; spc]
               (fun output => "error running " +:+ cert2spc +:+ " " +:+ cer
                              +:+ " " +:+ spc +:+ ": " +:+ output)).
    + intros _ w3.
      apply (guarded_check_output_plain E
               (pvk2pfx_cmd pvk2pfx pvk password spc pfx)
               (fun output => "error running " +:+ pvk2pfx +:+ ": " +:+ output)).
Qed.

(** X11.  make_pfx has two kinds of result only: it returns 0, or it
    raises a RuntimeError or an OSError.  A failure of the converter or of
    the packaging tool never leaves it as CalledProcessError, and no error
    is ever reported through a return value: it never returns -1 or any
    value other than 0. *)
Theorem make_pfx_result (E : environment)
    (ca_subject password ca_pvk_filename ca_cer_filename pfx_filename : string)
    (w : world) :
  match (make_pfx E ca_subject password ca_pvk_filename ca_cer_filename
           pfx_filename w).1 with
  | Ret v => v = 0
  | Raise e => runtime_or_os_error e
  end.
Proof.
  unfold make_pfx, get_winsdk_path.
  destruct (env_sdk E) as [sdk|]; [|exact I].
  unfold bind at 1. unfold ret at 1. unfold bind at 1.
  unfold tempfile_mkdtemp at 1. unfold bind, try_finally, shutil_rmtree.
  cbv beta iota zeta.
  match goal with
  | |- context [make_pfx_body ?e0 ?a ?b ?c ?d ?e ?f ?g ?h ?i ?j ?k ?w0] =>
      pose proof (make_pfx_body_plain e0 a b c d e f g h i j k w0) as Hb;
      destruct (make_pfx_body e0 a b c d e f g h i j k w0) as [rb wb]
  end.
  destruct rb as [[]|e]; simpl in *; [reflexivity | exact Hb].
Qed.

(** *** make_ca before the launch *)

(** X12.  The validity window handed to makecert depends on the clock only
    through today's date and on valid_hours only through its whole days:
    the time of day and the hours beyond a multiple of 24 change nothing.
    In particular every valid_hours from 0 to 23 gives the window of
    valid_hours = 0, which ends today. *)
Theorem make_ca_window_whole_days (now : datetime) (valid_hours : Z)
    (w : world) :
  make_ca_dates now valid_hours w =
  make_ca_dates (mkDatetime (dt_ordinal now) 0)
                (24 * (valid_hours / 24)) w /\
  (0 <= valid_hours < 24 ->
   make_ca_dates now valid_hours w = make_ca_dates now 0 w).
Proof.
  destruct now as [o s]. simpl dt_ordinal. split.
  - apply make_ca_dates_whole_days.
  - intros H.
    rewrite (make_ca_dates_whole_days o s s valid_hours w).
    rewrite (make_ca_dates_whole_days o s s 0 w).
    rewrite (Z.div_small valid_hours 24) by lia. reflexivity.
Qed.

Lemma make_ca_window_whole_days_witness :
  0 <= 23 < 24 /\
  make_ca_dates (mkDatetime 736330 46800) 23 empty_world =
  make_ca_dates (mkDatetime 736330 46800) 0 empty_world.
Proof.
  split; [lia|].
  apply (proj2 (make_ca_window_whole_days (mkDatetime 736330 46800) 23
                  empty_world)).
  lia.
Defined.

(** X13.  make_ca checks for makecert.exe before anything else happens:
    with the SDK path known and no file Bin\makecert.exe under it, make_ca
    raises the assertion error naming that path and leaves the world as it
    was: nothing is launched, logged or added to a store. *)
Theorem make_ca_needs_makecert (E : environment)
    (sdk subject password pvk_filename cer_filename : string)
    (valid_hours : Z) (w : world) :
  env_sdk E = Some sdk ->
  fs_isfile (w_fs w) (makecert_path sdk) = false ->
  make_ca E subject password pvk_filename cer_filename valid_hours w =
  (Raise (AssertionError ("missing '" +:+ makecert_path sdk +:+ "'")), w).
Proof.
  intros Hsdk Hfile.
  unfold make_ca, make_ca_run, get_winsdk_path. rewrite Hsdk.
  unfold bind, ret, os_path_isfile. fold (makecert_path sdk).
  rewrite Hfile. reflexivity.
Qed.

Lemma make_ca_needs_makecert_witness :
  env_sdk quiet_env = Some "C:\SDK" /\
  fs_isfile (w_fs empty_world) (makecert_path "C:\SDK") = false /\
  make_ca quiet_env "My CA" "secret" "ca.pvk" "ca.cer" 24 empty_world =
  (Raise (AssertionError ("missing '" +:+ makecert_path "C:\SDK" +:+ "'")),
   empty_world).
Proof.
  split; [reflexivity|]. split; [reflexivity|].
  apply (make_ca_needs_makecert quiet_env "C:\SDK" "My CA" "secret" "ca.pvk"
           "ca.cer" 24 empty_world); reflexivity.
Defined.

(** *** More on the responders and the store adapter *)

Lemma launches_app a b : launches (a ++ b) = launches a ++ launches b.
Proof. apply List.filter_app. Qed.

Lemma launches_poll_events wm n h : launches (poll_events wm h n) = [].
Proof.
  revert h. induction n as [|n IH]; intros h; [reflexivity|].
  change (poll_events wm h (S n))
    with (if wm h popup_title then [hit]
          else miss ++ poll_events wm (h ++ miss) n).
  destruct (wm h popup_title); [reflexivity|].
  now rewrite launches_app, IH.
Qed.

(** X15.  Whatever the window manager answers, each responder launches the
    command exactly once, without waiting for it and with window style 1,
    and never launches it again: a timeout is not followed by a retry. *)
Theorem responders_launch_once (E : environment) (cmd password : string)
    (w : world) :
  (exists r evs,
     runs (run_makecert_authority E cmd password) w r evs /\
     launches evs = [ShellRun cmd 1 false]) /\
  (exists r evs,
     runs (run_makecert_enduser E cmd password) w r evs /\
     launches evs = [ShellRun cmd 1 false]).
Proof.
  split.
  - set (h := w_trace w ++ launch_events "run_makecert_authority" cmd).
    set (polls := poll_events (env_activate E) h 20).
    set (found := env_activate E (h ++ polls) popup_title).
    exists (if found then Ret tt else Raise popup_timeout). eexists. split.
    + apply authority_around_wait. intros w1 Hw1.
      pose proof (wait_for_popup_general E w1) as H. cbv zeta in H.
      fold h in Hw1. rewrite Hw1 in H. exact H.
    + fold h polls found.
      assert (Hp : launches polls = []) by apply launches_poll_events.
      rewrite !launches_app, Hp.
      destruct found; reflexivity.
  - set (h := w_trace w ++ launch_events "run_makecert_enduser" cmd).
    set (polls := poll_events (env_activate E) h 20).
    set (found := env_activate E (h ++ polls) popup_title).
    exists (if found then Ret tt else Raise popup_timeout). eexists. split.
    + apply enduser_around_wait. intros w1 Hw1.
      pose proof (wait_for_popup_general E w1) as H. cbv zeta in H.
      fold h in Hw1. rewrite Hw1 in H. exact H.
    + fold h polls found.
      assert (Hp : launches polls = []) by apply launches_poll_events.
      rewrite !launches_app, Hp.
      destruct found; reflexivity.
Qed.

Lemma remove_cert_fromstore_any_environment_witness :
  let E := with_processes (exec_certutil (fun _ => two_serials) fail_first)
             quiet_env in
  exists r evs k,
    runs (remove_cert_fromstore E "1a2b" "Root") empty_world r evs /\
    (k <= 2)%nat /\
    invocations evs =
      store_cmd "Root" "1a2b" :: map (delstore_cmd "Root")
                                     (take k ["01"; "02"]).
Proof.
  cbv zeta.
  destruct (remove_cert_fromstore_any_environment
              (with_processes (exec_certutil (fun _ => two_serials) fail_first)
                 quiet_env) "1a2b" "Root" empty_world)
    as (r & evs & k & Hrun & Hk & Hinv & _).
  exists r, evs, k. split; [exact Hrun|]. split; [exact Hk | exact Hinv].
Defined.
